(** * The YOLO oriented-box extractor of datumaro

    A shallow embedding of
    [src/datumaro/plugins/yolo_orientedbox_format/extractor.py]
    and the properties of its lazy, fault-isolating materialisation of
    dataset items.

    Layout: text helpers, exceptions, the outside world (files, image
    decoder, number parsing, OpenCV), the annotation parser, the lazy
    cache of a subset and its iteration, the category loader; then
    sample inputs; then the properties. *)

From Stdlib Require Import Ascii.
From stdpp Require Import base strings list gmap pretty sorting.

Local Open Scope string_scope.
Local Open Scope list_scope.
Local Open Scope Z_scope.

(** ** Text: [str.strip] and [str.split] *)

(** [str.isspace] on the ASCII range: tab to carriage return, the four
    separators 0x1c-0x1f and the blank.  Text is modelled as ASCII; the
    other Unicode blanks are outside the model. *)
Definition is_space (c : ascii) : bool :=
  let n := nat_of_ascii c in
  Nat.eqb n 32 || (Nat.leb 9 n && Nat.leb n 13) || (Nat.leb 28 n && Nat.leb n 31).

Definition is_empty (s : string) : bool :=
  match s with EmptyString => true | String _ _ => false end.

Fixpoint lstrip (s : string) : string :=
  match s with
  | EmptyString => EmptyString
  | String c r => if is_space c then lstrip r else s
  end.

Fixpoint rstrip (s : string) : string :=
  match s with
  | EmptyString => EmptyString
  | String c r =>
      let r' := rstrip r in
      if is_space c && is_empty r' then EmptyString else String c r'
  end.

(** [line.strip()] *)
Definition strip (s : string) : string := rstrip (lstrip s).

(** [line.split()]: the maximal runs of non-blank characters, in order.
    [cur] is the token being read. *)
Fixpoint split_from (cur : string) (s : string) : list string :=
  match s with
  | EmptyString => if is_empty cur then [] else [cur]
  | String c r =>
      if is_space c
      then (if is_empty cur then split_from EmptyString r
            else cur :: split_from EmptyString r)
      else split_from (cur +:+ String c EmptyString) r
  end.

Definition split (s : string) : list string := split_from EmptyString s.

(** [s.replace("\\", "/")] *)
Fixpoint backslash_to_slash (s : string) : string :=
  match s with
  | EmptyString => EmptyString
  | String c r =>
      String (if Ascii.eqb c "\"%char then "/"%char else c) (backslash_to_slash r)
  end.

(** [s.startswith(p)] and [s[len(p):]] *)
Fixpoint startswith (p s : string) : bool :=
  match p, s with
  | EmptyString, _ => true
  | String a p', String b s' => Ascii.eqb a b && startswith p' s'
  | String _ _, EmptyString => false
  end.

Fixpoint drop_chars (n : nat) (s : string) : string :=
  match n, s with
  | O, _ => s
  | S n', String _ r => drop_chars n' r
  | S _, EmptyString => EmptyString
  end.

(** ** Exceptions *)

(** The exception classes that occur in the file, each with the argument
    it is raised with. *)
Inductive Exn : Type :=
| OSError (path : string)
| DatasetImportError (msg : string)
| InvalidAnnotationError (msg : string)
| UndeclaredLabelError (label : string)
| ValueError (msg : string)
| TypeError (msg : string)
| KeyError (key : string)
| AttributeError (name : string)
| RuntimeError (msg : string)
| AssertionError (msg : string).

Global Instance Exn_eq_dec : EqDecision Exn.
Proof. solve_decision. Defined.

(** [except (UndeclaredLabelError, InvalidAnnotationError)] *)
Definition is_annotation_error (e : Exn) : bool :=
  match e with
  | UndeclaredLabelError _ | InvalidAnnotationError _ => true
  | _ => false
  end.

(** The outcome of a call: a value or a raised exception. *)
Inductive Res (A : Type) : Type :=
| Return (a : A)
| Raise (e : Exn).
Arguments Return {A} a.
Arguments Raise {A} e.

Global Instance Res_ret : MRet Res := fun A a => Return a.
Global Instance Res_bind : MBind Res := fun A B f m =>
  match m with
  | Return a => f a
  | Raise e => Raise e
  end.

(** [a, b = l] *)
Definition unpack2 {A : Type} (l : list A) : Res (A * A) :=
  match l with
  | [a; b] => Return (a, b)
  | [] | [_] =>
      Raise (ValueError ("not enough values to unpack (expected 2, got "
                         +:+ pretty (length l) +:+ ")"))
  | _ => Raise (ValueError "too many values to unpack (expected 2)")
  end.

(** ** YAML documents, as far as the category file is inspected *)

Inductive yaml_scalar : Type :=
| YNull
| YBool (b : bool)
| YInt (z : Z)
| YStr (s : string).

Global Instance yaml_scalar_eq_dec : EqDecision yaml_scalar.
Proof. solve_decision. Defined.

(** The value of one key of the document: a list, a mapping (in document
    order) or a scalar.  Containers nested deeper are not modelled. *)
Inductive yaml_value : Type :=
| YList (l : list yaml_scalar)
| YDict (m : list (yaml_scalar * yaml_scalar))
| YScalar (v : yaml_scalar).

(** What [yaml.safe_load] returns: a mapping with string keys, or
    something that is not a mapping. *)
Inductive yaml_doc : Type :=
| YDoc (fields : list (string * yaml_value))
| YNotAMapping.

(** [loaded[key]] on a loaded mapping: the first field with that key. *)
Fixpoint assoc {V : Type} (k : string) (l : list (string * V)) : option V :=
  match l with
  | [] => None
  | (k', v) :: rest => if String.eqb k k' then Some v else assoc k rest
  end.

Section Model.

(** Python floats (and numpy's float64) are kept abstract: [F] is their
    type, and every operation on them belongs to the [World] below. *)
Context {F : Type}.

(** ** Data model *)

(** [Bbox(x, y, w, h, label=, id=, group=, attributes={"angle": r})] *)
Record Bbox : Type := {
  bbox_x : F;
  bbox_y : F;
  bbox_w : F;
  bbox_h : F;
  bbox_label : Z;
  bbox_id : nat;
  bbox_group : nat;
  bbox_angle : F
}.

(** The five numbers a box is made of. *)
Definition bbox_geometry (b : Bbox) : F * F * F * F * F :=
  (bbox_x b, bbox_y b, bbox_w b, bbox_h b, bbox_angle b).

(** Modelled from the spec: [Image] of [datumaro.components.media] is
    not part of the sources.  An image descriptor is a file path with an
    optional known (height, width); [Image(path=, size=)] gives
    [Some size], [Image(path=, data=loader)] gives [None] and leaves the
    size to the decoder. *)
Record Image : Type := {
  image_path : string;
  image_known_size : option (Z * Z)
}.

(** Modelled from the spec: [DatasetItem] of
    [datumaro.components.extractor] is not part of the sources.  An item
    is an identifier, a subset name, an image descriptor and an ordered
    sequence of boxes. *)
Record DatasetItem : Type := {
  item_id : string;
  item_subset : string;
  item_media : Image;
  item_annotations : list Bbox
}.

(** Modelled from the spec: [LabelCategories] of
    [datumaro.components.annotation] is not part of the sources.  It is
    the ordered collection of label names, and the id of a label is its
    position. *)
Definition LabelCategories : Type := list yaml_scalar.

(** Modelled from the spec: [label_id in categories] of the missing
    [LabelCategories]: the id is a valid index into the collection. *)
Definition LabelCategories_contains (cats : LabelCategories) (label_id : Z) : bool :=
  (0 <=? label_id) && (label_id <? Z.of_nat (length cats)).

(** Modelled from the spec: [LabelCategories.add] of the missing class.
    The names of the collection are unique, so a name already present is
    refused; a new name takes the next position. *)
Definition LabelCategories_add (cats : LabelCategories) (name : yaml_scalar)
  : Res LabelCategories :=
  if decide (name ∈ cats)
  then Raise (AssertionError "label name already present")
  else Return (cats ++ [name]).

(** The argument [image_info] of the constructor:
    [Union[None, str, ImageMeta]]. *)
Inductive image_info_arg : Type :=
| InfoNone
| InfoPath (path : string)
| InfoDict (meta : gmap string (Z * Z)).

(** ** The outside world

    Everything the extractor calls and does not define: the file
    system, the image decoder, Python's [int] and [float], numpy's cast,
    OpenCV's [minAreaRect], [os.path], PyYAML, and the helpers and
    constants of datumaro that are imported from other modules. *)
Record World : Type := {
  (** [open(path, "r", encoding="utf-8")] and the iteration over the
      file: the lines, or [None] when opening or reading fails *)
  read_lines : string -> option (list string);
  (** the image loader: (height, width) of a decodable image *)
  decode_size : string -> option (Z * Z);
  (** [int(token)] and [float(token)]; [None] when they raise *)
  py_int : string -> option Z;
  py_float : string -> option F;
  (** [x * image_width], a float by an int (image sizes are far from
      the integers for which this product raises) *)
  float_mul_int : F -> Z -> F;
  (** [ndarray.astype(np.int32)] on one float64 *)
  astype_int32 : F -> Z;
  astype_int32_range : forall f : F, - 2 ^ 31 <= astype_int32 f < 2 ^ 31;
  (** [cv2.minAreaRect] on an int32 contour: ((cx, cy), (w, h), angle) *)
  minAreaRect : list (Z * Z) -> (F * F) * (F * F) * F;
  (** [os.path] *)
  osp_join : string -> string -> string;
  osp_splitext : string -> string * string;
  osp_normpath : string -> string;
  osp_dirname : string -> string;
  osp_basename : string -> string;
  osp_isdir : string -> bool;
  osp_isfile : string -> bool;
  (** what the constructor of [DatasetItem] makes of a single [Bbox]
      given as [annotations=]: the sequence it stores, or [None] when it
      raises a [TypeError] *)
  DatasetItem_annotations : Bbox -> option (list Bbox);
  (** [yaml.safe_load(open(path).read())] *)
  read_yaml : string -> Res yaml_doc;
  (** [has_meta_file], and the keys of [parse_meta_file] *)
  has_meta_file : string -> bool;
  parse_meta_file_keys : string -> list yaml_scalar;
  (** [load_image_meta_file] *)
  load_image_meta_file : string -> Res (gmap string (Z * Z));
  (** [find_files(rootpath, IMAGE_EXTENSIONS, recursive=True, max_depth=2)] *)
  find_files : string -> list string;
  extract_subset_name_from_parent : string -> string -> string;
  (** what [SourceExtractor.__init__(subset=)] stores as [_subset] *)
  SourceExtractor_subset : option string -> string;
  (** [YoloOrientedboxPath.META_FILE], [DEFAULT_IMAGE_META_FILE_NAME] *)
  META_FILE : string;
  DEFAULT_IMAGE_META_FILE_NAME : string
}.

Variable w : World.

(** Modelled from the spec: the property [Image.size] of the missing
    class [Image]: the known size if there is one, else what decoding
    the file gives. *)
Definition Image_size (image : Image) : option (Z * Z) :=
  match image_known_size image with
  | Some size => Some size
  | None => decode_size w (image_path image)
  end.

(** ** Extractor state *)

(** What the run leaves behind for an observer: the two reports of the
    error policy, and the two accesses that cost input: opening an
    annotation file and reading the size of an image. *)
Inductive Event : Type :=
| ItemError (e : Exn) (item : string * string)
| AnnotationError (e : Exn) (item : string * string)
| OpenFile (path : string)
| ImageSizeRead (path : string).

(** An entry of [Subset.items]: [Union[str, DatasetItem]]. *)
Inductive Entry : Type :=
| Placeholder (filename : string)
| Resolved (item : DatasetItem).

(** [collections.OrderedDict]: the entries in insertion order (keys are
    unique) and the modification counter that its iterators compare. *)
Record ODict : Type := {
  od_items : list (string * Entry);
  od_state : nat
}.

Definition od_keys (od : ODict) : list string := (od_items od).*1.

(** [od[key]] *)
Definition od_get (key : string) (od : ODict) : option Entry :=
  assoc key (od_items od).

(** [od[key] = value] for a key that is present: the value is replaced
    in place, and the counter stays; a new key is appended. *)
Fixpoint replace_value (key : string) (v : Entry) (l : list (string * Entry))
  : option (list (string * Entry)) :=
  match l with
  | [] => None
  | (k, v') :: rest =>
      if String.eqb key k then Some ((k, v) :: rest)
      else (fun r => (k, v') :: r) <$> replace_value key v rest
  end.

Definition od_set (key : string) (v : Entry) (od : ODict) : ODict :=
  match replace_value key v (od_items od) with
  | Some items => {| od_items := items; od_state := od_state od |}
  | None => {| od_items := od_items od ++ [(key, v)]; od_state := S (od_state od) |}
  end.

(** [od.pop(key)]: [None] stands for the [KeyError] of a missing key. *)
Definition od_pop (key : string) (od : ODict) : option ODict :=
  match od_get key od with
  | None => None
  | Some _ =>
      Some {| od_items := filter (fun kv => negb (String.eqb key kv.1)) (od_items od);
              od_state := S (od_state od) |}
  end.

(** The fields of the extractor that are set once. *)
Record Extractor : Type := {
  _path : string;
  _image_info : gmap string (Z * Z);
  _urls : list string;
  _img_files : gmap string string;
  _subset : string;
  _categories : LabelCategories
}.

(** The extractor at run time.  [_subsets] maps a subset name to the
    items of that [Subset]; [__init__] of this file does not fill it,
    [_get] and [get_subset] read it, so it is part of the state a caller
    provides.  [trace] is what the error policy and the files have seen
    so far. *)
Record State : Type := {
  ext : Extractor;
  _subsets : gmap string ODict;
  trace : list Event
}.

Definition log (ev : Event) (s : State) : State :=
  {| ext := ext s; _subsets := _subsets s; trace := trace s ++ [ev] |}.

Definition set_subset (name : string) (od : ODict) (s : State) : State :=
  {| ext := ext s; _subsets := <[name := od]> (_subsets s); trace := trace s |}.

(** Modelled from the spec: the two operations of the error policy
    ([self._ctx.error_policy]), which is not part of the sources.  The
    sink records the failure and decides nothing about control flow. *)
Definition report_item_error (e : Exn) (item : string * string) (s : State) : State :=
  log (ItemError e item) s.

Definition report_annotation_error (e : Exn) (item : string * string) (s : State) : State :=
  log (AnnotationError e item) s.

(** ** The annotation parser *)

(** [xyxyxyxy2xywhr] receives a numpy array; in this file the array is a
    contour of float64 points, [np.array] of products of floats. *)
Inductive ndarray : Type :=
| Int32Array (points : list (Z * Z))
| Float64Array (points : list (F * F)).

Definition astype_int32_point (p : F * F) : Z * Z :=
  (astype_int32 w p.1, astype_int32 w p.2).

Definition xyxyxyxy2xywhr (cnt : ndarray) : (F * F) * (F * F) * F :=
  match cnt with
  | Int32Array points => minAreaRect w points
  | Float64Array points => minAreaRect w (astype_int32_point <$> points)
  end.

Definition localize_path (path : string) : string :=
  let path := backslash_to_slash (osp_normpath w (strip path)) in
  let default_base := "data/" in
  if startswith default_base path
  then drop_chars (String.length default_base) path
  else path.

(** [_parse_field(value, cls, field_name)]; [cls_repr] is how [cls]
    prints in the message. *)
Definition _parse_field {T : Type} (value : string) (cls : string -> option T)
    (cls_repr field_name : string) : Res T :=
  match cls value with
  | Some v => Return v
  | None =>
      Raise (InvalidAnnotationError
               ("Can't parse " +:+ field_name +:+ " from '" +:+ value
                +:+ "'. Expected " +:+ cls_repr))
  end.

Definition int_repr : string := "<class 'int'>".
Definition float_repr : string := "<class 'float'>".

(** The body of the [try] of [_parse_annotations]: one line, already
    stripped, at position [idx] of the collected lines, to one box. *)
Definition parse_line (cats : LabelCategories) (image_height image_width : Z)
    (idx : nat) (line : string) : Res Bbox :=
  let parts := split line in
  if negb (Nat.eqb (length parts) 9) then
    Raise (InvalidAnnotationError
             ("Unexpected field count " +:+ pretty (length parts)
              +:+ " in the oriented bbox description. "
              +:+ "Expected 9 fields (label, x1, y1, x2, y2, x3, y3, x4, y4)."))
  else
    match parts with
    | [label_id; x1; y1; x2; y2; x3; y3; x4; y4] =>
        label_id ← _parse_field label_id (py_int w) int_repr "oriented bbox label id";
        if negb (LabelCategories_contains cats label_id) then
          Raise (UndeclaredLabelError (pretty label_id))
        else
          x1 ← _parse_field x1 (py_float w) float_repr "oriented bbox x1";
          y1 ← _parse_field y1 (py_float w) float_repr "oriented bbox y1";
          x2 ← _parse_field x2 (py_float w) float_repr "oriented bbox x2";
          y2 ← _parse_field y2 (py_float w) float_repr "oriented bbox y2";
          x3 ← _parse_field x3 (py_float w) float_repr "oriented bbox x3";
          y3 ← _parse_field y3 (py_float w) float_repr "oriented bbox y3";
          x4 ← _parse_field x4 (py_float w) float_repr "oriented bbox x4";
          y4 ← _parse_field y4 (py_float w) float_repr "oriented bbox y4";
          let '((x, y), (bw, bh), r) :=
            xyxyxyxy2xywhr
              (Float64Array
                 [ (float_mul_int w x1 image_width, float_mul_int w y1 image_height);
                   (float_mul_int w x2 image_width, float_mul_int w y2 image_height);
                   (float_mul_int w x3 image_width, float_mul_int w y3 image_height);
                   (float_mul_int w x4 image_width, float_mul_int w y4 image_height) ]) in
          Return {| bbox_x := x; bbox_y := y; bbox_w := bw; bbox_h := bh;
                    bbox_label := label_id; bbox_id := idx; bbox_group := idx;
                    bbox_angle := r |}
    | _ => Raise (ValueError "wrong number of values to unpack (expected 9)")
    end.

(** The first loop of [_parse_annotations]: strip every line of the
    file and keep the ones that are not empty. *)
Fixpoint collect_lines (f : list string) : list string :=
  match f with
  | [] => []
  | line :: rest =>
      let line := strip line in
      if is_empty line then collect_lines rest else line :: collect_lines rest
  end.

(** The second loop, [for idx, line in enumerate(lines)]: a box is
    appended to [annotations], an exception is reported and the loop
    goes on. *)
Fixpoint parse_loop (item : string * string) (image_height image_width : Z)
    (idx : nat) (lines : list string) (annotations : list Bbox) (s : State)
  : State * list Bbox :=
  match lines with
  | [] => (s, annotations)
  | line :: rest =>
      match parse_line (_categories (ext s)) image_height image_width idx line with
      | Return box =>
          parse_loop item image_height image_width (S idx) rest (annotations ++ [box]) s
      | Raise e =>
          parse_loop item image_height image_width (S idx) rest annotations
            (report_annotation_error e item s)
      end
  end.

Definition _parse_annotations (s : State) (anno_path : string) (image : Image)
    (item : string * string) : State * Res (list Bbox) :=
  let s := log (OpenFile anno_path) s in
  match read_lines w anno_path with
  | None => (s, Raise (OSError anno_path))
  | Some f =>
      let lines := collect_lines f in
      match lines with
      | [] => (s, Return [])
      | _ :: _ =>
          let s := log (ImageSizeRead (image_path image)) s in
          match Image_size image with
          | None =>
              (s, Raise (DatasetImportError
                           ("Can't find image info for '"
                            +:+ localize_path (image_path image) +:+ "'")))
          | Some _ =>
              let s := log (ImageSizeRead (image_path image)) s in
              match Image_size image with
              | None => (s, Raise (TypeError "cannot unpack non-iterable NoneType object"))
              | Some (image_height, image_width) =>
                  let '(s, annotations) :=
                    parse_loop item image_height image_width 0 lines [] s in
                  (s, Return annotations)
              end
          end
      end
  end.

(** ** The lazy cache: [_get] *)

(** The image of an entry, [Image(path=image_path, size=image_size)] or
    [Image(path=image_path, data=self._image_loader)], and the path of
    its annotation file. *)
Definition entry_image (s : State) (item_id filename : string) : Image :=
  let image_size := _image_info (ext s) !! item_id in
  let image_path := osp_join w (_path (ext s)) filename in
  match image_size with
  | Some size => {| image_path := image_path; image_known_size := Some size |}
  | None => {| image_path := image_path; image_known_size := None |}
  end.

Definition entry_anno_path (s : State) (item_id filename : string) : string :=
  (osp_splitext w (image_path (entry_image s item_id filename))).1 +:+ ".txt".

(** The body of the [try] of [_get] up to the construction of the item. *)
Definition resolve (s : State) (item_id subset_name filename : string)
  : State * Res DatasetItem :=
  let image := entry_image s item_id filename in
  let anno_path := entry_anno_path s item_id filename in
  let '(s, parsed) := _parse_annotations s anno_path image (item_id, subset_name) in
  (s,
   parsed ← parsed;
   '(annotations, angle) ← unpack2 parsed;
   match DatasetItem_annotations w annotations with
   | Some stored =>
       Return {| item_id := item_id; item_subset := subset_name;
                 item_media := image; item_annotations := stored |}
   | None => Raise (TypeError "'Bbox' object is not iterable")
   end).

(** [_get(item_id, subset_name)].  The handler of the two annotation
    errors reads [self._subset_name], an attribute that no line of the
    file assigns, before it can report. *)
Definition _get (s : State) (item_id subset_name : string)
  : State * Res (option DatasetItem) :=
  match _subsets s !! subset_name with
  | None => (s, Raise (KeyError subset_name))
  | Some subset =>
      match od_get item_id subset with
      | None => (s, Raise (KeyError item_id))
      | Some (Resolved item) => (s, Return (Some item))
      | Some (Placeholder filename) =>
          match resolve s item_id subset_name filename with
          | (s, Return item) =>
              (set_subset subset_name (od_set item_id (Resolved item) subset) s,
               Return (Some item))
          | (s, Raise e) =>
              if is_annotation_error e then
                (s, Raise (AttributeError "_subset_name"))
              else
                let s := report_item_error e (item_id, subset_name) s in
                match od_pop item_id subset with
                | Some subset' => (set_subset subset_name subset' s, Return None)
                | None => (s, Raise (KeyError item_id))
                end
          end
      end
  end.

(** ** [Subset.__iter__] *)

(** [for item_id in self.items] with the iterator of an [OrderedDict]:
    each step first stops at the end of the keys, then raises a
    [RuntimeError] when the dictionary was modified since the iterator
    was made ([di_state] is the counter it remembers), then hands out
    the key.  A modification ends the loop at the next step, so the keys
    still to come are those of the dictionary at the start.  The result
    is the state, the items yielded, and the exception that ended the
    generator, if any. *)
Fixpoint iter_from (name : string) (di_state : nat) (keys : list string) (s : State)
  : State * list DatasetItem * option Exn :=
  match keys with
  | [] => (s, [], None)
  | item_id :: rest =>
      match _subsets s !! name with
      | None => (s, [], Some (KeyError name))
      | Some od =>
          if negb (Nat.eqb (od_state od) di_state) then
            (s, [], Some (RuntimeError "OrderedDict mutated during iteration"))
          else
            match _get s item_id name with
            | (s, Raise e) => (s, [], Some e)
            | (s, Return None) => iter_from name di_state rest s
            | (s, Return (Some item)) =>
                let '(s, items, out) := iter_from name di_state rest s in
                (s, item :: items, out)
            end
      end
  end.

(** [list(extractor.get_subset(name))], run to the end of the generator. *)
Definition Subset_iter (s : State) (name : string)
  : State * list DatasetItem * option Exn :=
  match _subsets s !! name with
  | None => (s, [], Some (KeyError name))
  | Some od => iter_from name (od_state od) (od_keys od) s
  end.

(** [Subset.__len__] *)
Definition Subset_len (s : State) (name : string) : option nat :=
  (fun od => length (od_items od)) <$> _subsets s !! name.

(** ** [YoloOrientedboxExtractor.__iter__]

    The other reader of annotation files: it goes through [_urls] and
    takes the list that [_parse_annotations] returns as it is. *)
Definition _get_fname (fpath : string) : string :=
  (osp_splitext w (osp_basename w fpath)).1.

Fixpoint iter_urls (urls : list string) (s : State) : State * list DatasetItem :=
  match urls with
  | [] => (s, [])
  | url :: rest =>
      let fname := _get_fname url in
      match _img_files (ext s) !! fname with
      | None =>
          iter_urls rest (report_item_error (KeyError fname) (fname, _subset (ext s)) s)
      | Some path =>
          let img := {| image_path := path; image_known_size := None |} in
          match _parse_annotations s url img (fname, _subset (ext s)) with
          | (s, Return anns) =>
              let '(s, items) := iter_urls rest s in
              (s, {| item_id := fname; item_subset := _subset (ext s);
                     item_media := img; item_annotations := anns |} :: items)
          | (s, Raise e) =>
              iter_urls rest (report_item_error e (fname, _subset (ext s)) s)
          end
      end
  end.

Definition Extractor_iter (s : State) : State * list DatasetItem :=
  iter_urls (_urls (ext s)) s.

(** ** The category loader *)

(** [for label_name in label_names: label_categories.add(label_name)] *)
Fixpoint add_all (cats : LabelCategories) (label_names : list yaml_scalar)
  : Res LabelCategories :=
  match label_names with
  | [] => Return cats
  | label_name :: rest =>
      cats ← LabelCategories_add cats label_name;
      add_all cats rest
  end.

(** [loaded["names"]] *)
Definition names_of (loaded : yaml_doc) : Res yaml_value :=
  match loaded with
  | YDoc fields =>
      match assoc "names" fields with
      | Some v => Return v
      | None => Raise (KeyError "names")
      end
  | YNotAMapping => Raise (TypeError "the loaded document is not a mapping")
  end.

Definition _load_categories (names_path : string) : Res LabelCategories :=
  if has_meta_file w (osp_dirname w names_path) then
    add_all [] (parse_meta_file_keys w (osp_dirname w names_path))
  else
    loaded ← read_yaml w names_path;
    names ← names_of loaded;
    label_names ←
      match names with
      | YList l => Return l
      | YDict m => Return m.*2
      | YScalar _ =>
          Raise (DatasetImportError
                   ("Can't read dataset category file '" +:+ names_path +:+ "'"))
      end;
    add_all [] label_names.

(** ** The constructor *)

Definition parse_image_info (rootpath : string) (image_info : image_info_arg)
  : Res (gmap string (Z * Z)) :=
  match image_info with
  | InfoNone =>
      let image_info := osp_join w rootpath (DEFAULT_IMAGE_META_FILE_NAME w) in
      if negb (osp_isfile w image_info) then Return ∅
      else load_image_meta_file w image_info
  | InfoPath image_info => load_image_meta_file w image_info
  | InfoDict image_info => Return image_info
  end.

(** The dict comprehension of [_load_img_files]: a later file with the
    same base name replaces an earlier one. *)
Definition _load_img_files (rootpath subset : string) : gmap string string :=
  foldl (fun files img_file =>
           if String.eqb (extract_subset_name_from_parent w img_file rootpath) subset
           then <[_get_fname img_file := img_file]> files
           else files)
        ∅ (find_files w rootpath).

Definition _get_rootpath (config_path : string) : string := config_path.

Definition urls_missing_message : string :=
  "`urls` should be specified for YoloOrientedboxExtractor, "
  +:+ "if you want to import a dataset with using this YoloOrientedboxExtractor directly. "
  +:+ "In most case, it happens by giving an incorrect format name to the import interface. "
  +:+ "Please consider to import your dataset with this format name, 'yolo', "
  +:+ "such as `Dataset.import_from(..., format='yolo')`.".

(** [__init__(config_path, image_info, urls, subset=)]: the extractor,
    or the exception that leaves the caller without one. *)
Definition __init__ (config_path : string) (image_info : image_info_arg)
    (urls : option (list string)) (subset : option string) : Res Extractor :=
  if negb (osp_isdir w config_path) then
    Raise (DatasetImportError (config_path +:+ " should be a directory."))
  else
    match urls with
    | None | Some [] => Raise (DatasetImportError urls_missing_message)
    | Some urls =>
        let subset := SourceExtractor_subset w subset in
        let rootpath := _get_rootpath config_path in
        image_info ← parse_image_info rootpath image_info;
        let img_files := _load_img_files rootpath subset in
        categories ← _load_categories (osp_join w rootpath (META_FILE w));
        Return {| _path := rootpath; _image_info := image_info; _urls := urls;
                  _img_files := img_files; _subset := subset;
                  _categories := categories |}
    end.

End Model.

Arguments Bbox F : clear implicits.
Arguments DatasetItem F : clear implicits.
Arguments World F : clear implicits.
Arguments Entry F : clear implicits.
Arguments ODict F : clear implicits.
Arguments State F : clear implicits.
Arguments ndarray F : clear implicits.

(** * Reading the results *)

Section Reading.

Context {F : Type}.

(** The values among a list of outcomes, and the exceptions among it. *)
Definition successes {A : Type} (rs : list (Res A)) : list A :=
  omap (fun r => match r with Return a => Some a | Raise _ => None end) rs.

Definition failures {A : Type} (rs : list (Res A)) : list Exn :=
  omap (fun r => match r with Return _ => None | Raise e => Some e end) rs.

(** [s] after the events [evs]. *)
Definition extend_trace (evs : list Event) (s : State F) : State F :=
  {| ext := ext s; _subsets := _subsets s; trace := trace s ++ evs |}.

(** The ordinal of a box read as a position among all lines of the file
    [f], and read as a position among the lines that are left when the
    blank ones are dropped. *)
Definition ordinal_is_file_position (w : World F) (cats : LabelCategories)
    (image_height image_width : Z) (f : list string) (b : Bbox F) : Prop :=
  exists line, f !! bbox_id b = Some line
    /\ parse_line w cats image_height image_width (bbox_id b) (strip line) = Return b.

Definition ordinal_is_collected_position (w : World F) (cats : LabelCategories)
    (image_height image_width : Z) (f : list string) (b : Bbox F) : Prop :=
  exists line, collect_lines f !! bbox_id b = Some line
    /\ parse_line w cats image_height image_width (bbox_id b) line = Return b.

(** The four corners of a line in pixels, [x * image_width] and
    [y * image_height], and the same cast to int32. *)
Definition scaled_corners (w : World F) (image_height image_width : Z) (line : string)
  : option (list (F * F)) :=
  match split line with
  | [_; x1; y1; x2; y2; x3; y3; x4; y4] =>
      x1 ← py_float w x1; y1 ← py_float w y1;
      x2 ← py_float w x2; y2 ← py_float w y2;
      x3 ← py_float w x3; y3 ← py_float w y3;
      x4 ← py_float w x4; y4 ← py_float w y4;
      Some [ (float_mul_int w x1 image_width, float_mul_int w y1 image_height);
             (float_mul_int w x2 image_width, float_mul_int w y2 image_height);
             (float_mul_int w x3 image_width, float_mul_int w y3 image_height);
             (float_mul_int w x4 image_width, float_mul_int w y4 image_height) ]
  | _ => None
  end.

Definition truncated_corners (w : World F) (image_height image_width : Z) (line : string)
  : option (list (Z * Z)) :=
  (fun points : list (F * F) => astype_int32_point w <$> points)
    <$> scaled_corners w image_height image_width line.

Definition in_int32 (p : Z * Z) : Prop :=
  - 2 ^ 31 <= p.1 < 2 ^ 31 /\ - 2 ^ 31 <= p.2 < 2 ^ 31.

(** The contour that [parse_line] hands to [minAreaRect] for the corners
    [(x1, y1)] to [(x4, y4)] of a line. *)
Definition contour_of (w : World F) (H W : Z) (x1 y1 x2 y2 x3 y3 x4 y4 : F)
  : list (Z * Z) :=
  astype_int32_point w <$>
    [ (float_mul_int w x1 W, float_mul_int w y1 H);
      (float_mul_int w x2 W, float_mul_int w y2 H);
      (float_mul_int w x3 W, float_mul_int w y3 H);
      (float_mul_int w x4 W, float_mul_int w y4 H) ].

(** The box that [minAreaRect] makes of a contour. *)
Definition box_of_rect (rect : (F * F) * (F * F) * F) (label : Z) (idx : nat) : Bbox F :=
  {| bbox_x := rect.1.1.1; bbox_y := rect.1.1.2;
     bbox_w := rect.1.2.1; bbox_h := rect.1.2.2;
     bbox_label := label; bbox_id := idx; bbox_group := idx;
     bbox_angle := rect.2 |}.

(** The five numbers of a rectangle of [minAreaRect], in the order of
    [bbox_geometry]. *)
Definition rect_geometry (rect : (F * F) * (F * F) * F) : F * F * F * F * F :=
  (rect.1.1.1, rect.1.1.2, rect.1.2.1, rect.1.2.2, rect.2).

End Reading.

(** * The other readers, and what a run leaves behind *)

Section Readers.

Context {F : Type} (w : World F).

(** [YoloOrientedboxExtractor.__len__]:
    [sum(len(s) for s in self._subsets.values())] *)
Definition Extractor_len (s : State F) : nat :=
  map_fold (fun _ od n => (length (od_items od) + n)%nat) 0%nat (_subsets s).

(** [YoloOrientedboxExtractor.__iter__] with its bookkeeping: after an
    item is yielded, the type of each of its annotations is added to
    [_ann_types].  The class of the annotations is not part of the
    sources, so [ann_type], the attribute [type] of a box, is a
    parameter.  The result is the state, the items yielded, and
    [_ann_types] at the end of the generator. *)
Fixpoint iter_urls_types {T : Type} `{Countable T} (ann_type : Bbox F -> T)
    (urls : list string) (s : State F) (_ann_types : gset T)
  : State F * list (DatasetItem F) * gset T :=
  match urls with
  | [] => (s, [], _ann_types)
  | url :: rest =>
      let fname := _get_fname w url in
      match _img_files (ext s) !! fname with
      | None =>
          iter_urls_types ann_type rest
            (report_item_error (KeyError fname) (fname, _subset (ext s)) s) _ann_types
      | Some path =>
          let img := {| image_path := path; image_known_size := None |} in
          match _parse_annotations w s url img (fname, _subset (ext s)) with
          | (s, Return anns) =>
              let _ann_types :=
                foldl (fun types ann => types ∪ {[ ann_type ann ]}) _ann_types anns in
              let '(s, items, _ann_types) :=
                iter_urls_types ann_type rest s _ann_types in
              (s, {| item_id := fname; item_subset := _subset (ext s);
                     item_media := img; item_annotations := anns |} :: items,
               _ann_types)
          | (s, Raise e) =>
              iter_urls_types ann_type rest
                (report_item_error e (fname, _subset (ext s)) s) _ann_types
          end
      end
  end.

(** The reports among a list of events. *)
Definition item_reports (evs : list Event) : list (Exn * (string * string)) :=
  omap (fun ev => match ev with ItemError e item => Some (e, item) | _ => None end) evs.

Definition annotation_reports (evs : list Event) : list (Exn * (string * string)) :=
  omap (fun ev => match ev with AnnotationError e item => Some (e, item) | _ => None end) evs.

(** What one call of the parser for the file [anno_path], the image
    [image] and the item [item] may leave in the trace. *)
Definition parser_event (anno_path : string) (image : Image) (item : string * string)
    (ev : Event) : Prop :=
  match ev with
  | ItemError _ _ => False
  | AnnotationError e item' => item' = item /\ is_annotation_error e = true
  | OpenFile path => path = anno_path
  | ImageSizeRead path => path = image_path image
  end.

(** The items of the resolved entries of a subset, in order. *)
Definition resolved_items (items : list (string * Entry F)) : list (DatasetItem F) :=
  omap (fun kv => match kv.2 with Resolved item => Some item | Placeholder _ => None end)
       items.

Definition is_resolved (kv : string * Entry F) : Prop :=
  exists item, kv.2 = Resolved item.

(** The image files that [_load_img_files] keeps under the name [name]
    for the subset [subset], in the order of the scan. *)
Definition files_named (rootpath subset name : string) : list string :=
  List.filter
    (fun img_file =>
       String.eqb (extract_subset_name_from_parent w img_file rootpath) subset
       && String.eqb (_get_fname w img_file) name)
    (find_files w rootpath).

(** What a caller can do with an extractor that is set up: call
    [_get], iterate over a subset, iterate over the extractor. *)
Inductive Call : Type :=
| CallGet (item_id subset_name : string)
| CallSubsetIter (name : string)
| CallIter.

(** The state after one call, and after a sequence of calls. *)
Definition run_call (s : State F) (c : Call) : State F :=
  match c with
  | CallGet item_id subset_name => (_get w s item_id subset_name).1
  | CallSubsetIter name => (Subset_iter w s name).1.1
  | CallIter => (Extractor_iter w s).1
  end.

Definition run_calls (calls : list Call) (s : State F) : State F :=
  foldl run_call s calls.

(** What the cache holds for an id of a subset: no such subset, no such
    key, or the entry. *)
Definition cache_status (s : State F) (item_id subset_name : string)
  : option (option (Entry F)) :=
  od_get item_id <$> _subsets s !! subset_name.

(** An id is settled when the cache holds no placeholder for it. *)
Definition is_settled (s : State F) (item_id subset_name : string) : Prop :=
  forall filename,
    cache_status s item_id subset_name <> Some (Some (Placeholder filename)).

End Readers.

(** Whether the character [c] occurs in [s]. *)
Fixpoint occurs (c : ascii) (s : string) : bool :=
  match s with
  | EmptyString => false
  | String c' r => Ascii.eqb c c' || occurs c r
  end.

(** The exception of an [OrderedDict] iterator that finds the dictionary
    modified. *)
Definition mutated : Exn := RuntimeError "OrderedDict mutated during iteration".

(** * Sample inputs

    A small concrete world on which the definitions above run: decimal
    numbers for the floats, a directory of three images, their
    annotation files.  The properties below hold in every world; the
    samples show that their premises can be met. *)

(** A decimal number [mantissa / 10 ^ digits]. *)
Record decimal : Type := {
  mantissa : Z;
  digits : nat
}.

Definition digit_of (c : ascii) : option Z :=
  let n := nat_of_ascii c in
  if Nat.leb 48 n && Nat.leb n 57 then Some (Z.of_nat (n - 48)) else None.

(** The digits at the head of [s]: their value after [acc], how many
    there are, and the rest of [s]. *)
Fixpoint read_digits (acc : Z) (s : string) : Z * nat * string :=
  match s with
  | EmptyString => (acc, O, s)
  | String c r =>
      match digit_of c with
      | Some d => let '(v, n, rest) := read_digits (10 * acc + d) r in (v, S n, rest)
      | None => (acc, O, s)
      end
  end.

Definition read_sign (s : string) : Z * string :=
  match s with
  | String "-" r => (-1, r)
  | String "+" r => (1, r)
  | _ => (1, s)
  end.

(** Signed decimal integers such as [7] or [-12]. *)
Definition sample_int (s : string) : option Z :=
  let '(sign, s) := read_sign s in
  match read_digits 0 s with
  | (v, S _, EmptyString) => Some (sign * v)
  | _ => None
  end.

(** Signed decimals with an optional fraction, such as [0.25] or [-3]. *)
Definition sample_float (s : string) : option decimal :=
  let '(sign, s) := read_sign s in
  match read_digits 0 s with
  | (v, S _, EmptyString) => Some {| mantissa := sign * v; digits := 0 |}
  | (v, S _, String "." r) =>
      match read_digits v r with
      | (v', n, EmptyString) => Some {| mantissa := sign * v'; digits := n |}
      | _ => None
      end
  | _ => None
  end.

Definition sample_mul (d : decimal) (n : Z) : decimal :=
  {| mantissa := mantissa d * n; digits := digits d |}.

(** Truncation towards zero, kept inside the 32-bit range. *)
Definition sample_astype (d : decimal) : Z :=
  Z.max (- 2 ^ 31) (Z.min (2 ^ 31 - 1) (Z.quot (mantissa d) (10 ^ Z.of_nat (digits d)))).

Definition sample_astype_range
  : forall d : decimal, - 2 ^ 31 <= sample_astype d < 2 ^ 31 :=
  ltac:(intros d; unfold sample_astype; lia).

Definition of_int (z : Z) : decimal := {| mantissa := z; digits := 0 |}.
Definition half_of (z : Z) : decimal := {| mantissa := 5 * z; digits := 1 |}.

(** A stand-in for OpenCV: the upright rectangle around the contour,
    with angle 0.  Any function of the contour would do here. *)
Definition sample_rect (points : list (Z * Z)) : (decimal * decimal) * (decimal * decimal) * decimal :=
  match points with
  | [] => ((of_int 0, of_int 0), (of_int 0, of_int 0), of_int 0)
  | p :: rest =>
      let xmin := foldr Z.min p.1 rest.*1 in
      let xmax := foldr Z.max p.1 rest.*1 in
      let ymin := foldr Z.min p.2 rest.*2 in
      let ymax := foldr Z.max p.2 rest.*2 in
      ((half_of (xmin + xmax), half_of (ymin + ymax)),
       (of_int (xmax - xmin), of_int (ymax - ymin)), of_int 0)
  end.

(** The root and the extension at the last dot of [s]. *)
Fixpoint split_last_dot (s : string) : option (string * string) :=
  match s with
  | EmptyString => None
  | String c r =>
      match split_last_dot r with
      | Some (root, e) => Some (String c root, e)
      | None => if Ascii.eqb c "."%char then Some (EmptyString, s) else None
      end
  end.

Definition sample_splitext (s : string) : string * string :=
  match split_last_dot s with
  | Some p => p
  | None => (s, EmptyString)
  end.

(** The part of [s] after its last slash. *)
Fixpoint after_last_slash (s : string) : option string :=
  match s with
  | EmptyString => None
  | String c r =>
      match after_last_slash r with
      | Some name => Some name
      | None => if Ascii.eqb c "/"%char then Some r else None
      end
  end.

Definition sample_basename (s : string) : string :=
  default s (after_last_slash s).

(** The decoder reads one image, [root/one.jpg], of 100 by 100. *)
Definition sample_decode (path : string) : option (Z * Z) :=
  if String.eqb path "root/one.jpg" then Some (100, 100) else None.

Definition square : string := "0 0.25 0.25 0.75 0.25 0.75 0.75 0.25 0.75".
Definition short : string := "0 0.25 0.25 0.75 0.25 0.75 0.75 0.25".
Definition wide : string := "1 -0.5 0.1 1.5 0.1 1.5 0.9 -0.5 0.9".
Definition undeclared : string := "7 0.1 0.1 0.2 0.1 0.2 0.2 0.1 0.2".

(** The annotation files: [one.txt] has a good line and a line of 8
    tokens, [two.txt] two good lines around a bad one, [blank.txt] a
    blank line before its only box, [empty.txt] blank lines only; every
    other path cannot be opened. *)
Definition sample_files (path : string) : option (list string) :=
  if String.eqb path "root/one.txt" then Some [square; short]
  else if String.eqb path "root/two.txt" then Some [square; undeclared; wide]
  else if String.eqb path "root/blank.txt" then Some [" "; square]
  else if String.eqb path "root/empty.txt" then Some [EmptyString; "  "]
  else None.

Definition sample_yaml (path : string) : Res yaml_doc :=
  if String.eqb path "root/data.yaml"
  then Return (YDoc [("names", YList [YStr "a"; YStr "b"; YStr "c"])])
  else if String.eqb path "ids/data.yaml"
  then Return (YDoc [("names", YDict [(YInt 0, YStr "a"); (YInt 1, YStr "b")])])
  else if String.eqb path "bad/data.yaml"
  then Return (YDoc [("names", YScalar (YStr "a"))])
  else Raise (OSError path).

Definition sample_world : World decimal := {|
  read_lines := sample_files;
  decode_size := sample_decode;
  py_int := sample_int;
  py_float := sample_float;
  float_mul_int := sample_mul;
  astype_int32 := sample_astype;
  astype_int32_range := sample_astype_range;
  minAreaRect := sample_rect;
  osp_join := fun a b => a +:+ "/" +:+ b;
  osp_splitext := sample_splitext;
  osp_normpath := fun p => p;
  osp_dirname := fun p => (sample_splitext p).1;
  osp_basename := sample_basename;
  osp_isdir := fun _ => true;
  osp_isfile := fun _ => false;
  DatasetItem_annotations := fun _ => None;
  read_yaml := sample_yaml;
  has_meta_file := fun _ => false;
  parse_meta_file_keys := fun _ => [];
  load_image_meta_file := fun _ => Return ∅;
  find_files := fun _ => [];
  extract_subset_name_from_parent := fun _ _ => EmptyString;
  SourceExtractor_subset := default "default";
  META_FILE := "data.yaml";
  DEFAULT_IMAGE_META_FILE_NAME := "images.meta"
|}.

Definition sample_ext : Extractor := {|
  _path := "root";
  _image_info := {[ "one" := (100, 100); "two" := (100, 100); "blank" := (100, 100) ]};
  _urls := [];
  _img_files := ∅;
  _subset := "train";
  _categories := [YStr "a"; YStr "b"]
|}.

Definition sample_items (items : list (string * Entry decimal)) : State decimal := {|
  ext := sample_ext;
  _subsets := {[ "train" := {| od_items := items; od_state := 0 |} ]};
  trace := []
|}.

(** A world in which the constructor of [DatasetItem] keeps a single box
    as a sequence of one. *)
Definition lenient_world : World decimal := {|
  read_lines := sample_files;
  decode_size := sample_decode;
  py_int := sample_int;
  py_float := sample_float;
  float_mul_int := sample_mul;
  astype_int32 := sample_astype;
  astype_int32_range := sample_astype_range;
  minAreaRect := sample_rect;
  osp_join := fun a b => a +:+ "/" +:+ b;
  osp_splitext := sample_splitext;
  osp_normpath := fun p => p;
  osp_dirname := fun p => (sample_splitext p).1;
  osp_basename := sample_basename;
  osp_isdir := fun _ => true;
  osp_isfile := fun _ => false;
  DatasetItem_annotations := fun b => Some [b];
  read_yaml := sample_yaml;
  has_meta_file := fun _ => false;
  parse_meta_file_keys := fun _ => [];
  load_image_meta_file := fun _ => Return ∅;
  find_files := fun _ => [];
  extract_subset_name_from_parent := fun _ _ => EmptyString;
  SourceExtractor_subset := default "default";
  META_FILE := "data.yaml";
  DEFAULT_IMAGE_META_FILE_NAME := "images.meta"
|}.

Definition sample_image (name : string) : Image :=
  {| image_path := "root/" +:+ name +:+ ".jpg"; image_known_size := Some (100, 100) |}.

Definition unsized_image (name : string) : Image :=
  {| image_path := "root/" +:+ name +:+ ".jpg"; image_known_size := None |}.

(** The boxes of the two good sample lines. *)
Definition square_box (idx : nat) : Bbox decimal :=
  box_of_rect (sample_rect [(25, 25); (75, 25); (75, 75); (25, 75)]) 0 idx.

Definition wide_box (idx : nat) : Bbox decimal :=
  box_of_rect (sample_rect [(-50, 10); (150, 10); (150, 90); (-50, 90)]) 1 idx.

(** Subsets of placeholders.  The image [missing.jpg] has neither a
    known size nor an annotation file that opens. *)
Definition one_state : State decimal :=
  sample_items [("one", Placeholder "one.jpg")].

Definition two_state : State decimal :=
  sample_items [("two", Placeholder "two.jpg")].

Definition missing_state : State decimal :=
  sample_items [("missing", Placeholder "missing.jpg")].

Definition missing_two_state : State decimal :=
  sample_items [("missing", Placeholder "missing.jpg"); ("two", Placeholder "two.jpg")].

Definition field_count_8 : Exn :=
  InvalidAnnotationError
    ("Unexpected field count 8 in the oriented bbox description. "
     +:+ "Expected 9 fields (label, x1, y1, x2, y2, x3, y3, x4, y4).").

(** Two lines whose corners differ by a fraction of a pixel on an image
    of 100 by 100. *)
Definition square_low : string := "0 0.251 0.25 0.75 0.25 0.75 0.75 0.25 0.75".
Definition square_high : string := "1 0.259 0.258 0.757 0.25 0.75 0.75 0.25 0.75".

Definition dec (m : Z) (d : nat) : decimal := {| mantissa := m; digits := d |}.

(** An extractor that reads [one.txt] through its list of urls. *)
Definition url_state : State decimal := {|
  ext := {| _path := "root"; _image_info := ∅; _urls := ["root/one.txt"];
            _img_files := {[ "one" := "root/one.jpg" ]}; _subset := "train";
            _categories := [YStr "a"; YStr "b"] |};
  _subsets := ∅;
  trace := []
|}.

(** More samples: the sample world with other files, another answer of
    [isdir], a meta file, or other category files. *)
Definition variant_world (files : string -> option (list string))
    (isdir : string -> bool) (meta : option (list yaml_scalar))
    (yaml : string -> Res yaml_doc) : World decimal := {|
  read_lines := files;
  decode_size := sample_decode;
  py_int := sample_int;
  py_float := sample_float;
  float_mul_int := sample_mul;
  astype_int32 := sample_astype;
  astype_int32_range := sample_astype_range;
  minAreaRect := sample_rect;
  osp_join := fun a b => a +:+ "/" +:+ b;
  osp_splitext := sample_splitext;
  osp_normpath := fun p => p;
  osp_dirname := fun p => (sample_splitext p).1;
  osp_basename := sample_basename;
  osp_isdir := isdir;
  osp_isfile := fun _ => false;
  DatasetItem_annotations := fun _ => None;
  read_yaml := yaml;
  has_meta_file := fun _ => match meta with Some _ => true | None => false end;
  parse_meta_file_keys := fun _ => default [] meta;
  load_image_meta_file := fun _ => Return ∅;
  find_files := fun _ => [];
  extract_subset_name_from_parent := fun _ _ => EmptyString;
  SourceExtractor_subset := default "default";
  META_FILE := "data.yaml";
  DEFAULT_IMAGE_META_FILE_NAME := "images.meta"
|}.

(** Two files that differ by a blank line in the middle. *)
Definition spaced_files (path : string) : option (list string) :=
  if String.eqb path "root/spaced.txt" then Some [square; "  "; undeclared; wide]
  else if String.eqb path "root/dense.txt" then Some [square; undeclared; wide]
  else None.

Definition spaced_world : World decimal :=
  variant_world spaced_files (fun _ => true) None sample_yaml.

Definition no_dir_world : World decimal :=
  variant_world sample_files (fun _ => false) None sample_yaml.

Definition meta_world : World decimal :=
  variant_world sample_files (fun _ => true) (Some [YStr "x"; YStr "y"]) sample_yaml.

(** A category file that holds a list, and one without the key. *)
Definition odd_yaml (path : string) : Res yaml_doc :=
  if String.eqb path "list/data.yaml" then Return YNotAMapping
  else if String.eqb path "other/data.yaml"
  then Return (YDoc [("nc", YScalar (YInt 2))])
  else Raise (OSError path).

Definition odd_world : World decimal :=
  variant_world sample_files (fun _ => true) None odd_yaml.

(** The item that the lenient world makes of [two.txt]. *)
Definition two_item : DatasetItem decimal :=
  {| item_id := "two"; item_subset := "train"; item_media := sample_image "two";
     item_annotations := [square_box 0] |}.

Definition two_resolved_state : State decimal :=
  sample_items [("two", Resolved two_item)].

(** A subset with a cached item, then an entry without annotation
    file, then another placeholder. *)
Definition mixed_state : State decimal :=
  sample_items [("two", Resolved two_item); ("missing", Placeholder "missing.jpg");
                ("one", Placeholder "one.jpg")].

(** Every box has the annotation type [bbox]. *)
Definition bbox_name (b : Bbox decimal) : string := "bbox".

Definition sample_urls : list string := ["root/one.txt"; "root/none.txt"].

Definition one_url_item : DatasetItem decimal :=
  {| item_id := "one"; item_subset := "train"; item_media := unsized_image "one";
     item_annotations := [square_box 0] |}.

(** The extractor that the sample world builds for the root [root]. *)
Definition root_extractor : Extractor :=
  {| _path := "root"; _image_info := ∅; _urls := ["root/one.txt"];
     _img_files := ∅; _subset := "default";
     _categories := [YStr "a"; YStr "b"; YStr "c"] |}.

(** A subset of two placeholders, and calls that a caller may make
    between two calls of [_get] for the same id. *)
Definition two_blank_state : State decimal :=
  sample_items [("two", Placeholder "two.jpg"); ("blank", Placeholder "blank.jpg")].

Definition later_calls : list Call :=
  [CallGet "one" "train"; CallSubsetIter "train"; CallIter; CallGet "two" "train";
   CallGet "missing" "train"; CallGet "one" "other"].

(** * Properties *)

Section Properties.

Context {F : Type} (w : World F).

Implicit Types (s : State F) (b : Bbox F) (image : Image) (item : string * string).

(** ** The parser *)

Lemma extend_trace_nil s : extend_trace [] s = s.
Proof. destruct s; unfold extend_trace; simpl. by rewrite app_nil_r. Qed.

Lemma extend_trace_app evs1 evs2 s :
  extend_trace evs2 (extend_trace evs1 s) = extend_trace (evs1 ++ evs2) s.
Proof. unfold extend_trace; simpl. by rewrite <- app_assoc. Qed.

Lemma log_extend_trace ev s : log ev s = extend_trace [ev] s.
Proof. reflexivity. Qed.

Lemma extend_trace_log ev evs s :
  extend_trace evs (log ev s) = extend_trace (ev :: evs) s.
Proof. by rewrite log_extend_trace, extend_trace_app. Qed.

(** The loop over the lines is a map over the positions: the outcome at
    position [idx + i] is that of line [i] alone. *)
Lemma parse_loop_spec item (H W : Z) (lines : list string) :
  forall (idx : nat) (anns : list (Bbox F)) s,
    let results :=
      imap (fun i line => parse_line w (_categories (ext s)) H W (idx + i) line) lines in
    parse_loop w item H W idx lines anns s
    = (extend_trace ((fun e => AnnotationError e item) <$> failures results) s,
       anns ++ successes results).
Proof.
  induction lines as [|line rest IH]; intros idx anns s; simpl.
  - by rewrite extend_trace_nil, app_nil_r.
  - rewrite Nat.add_0_r.
    assert (Hshift : forall cats,
      imap ((fun i l => parse_line w cats H W (idx + i) l) ∘ S) rest
      = imap (fun i l => parse_line w cats H W (S idx + i) l) rest).
    { intros cats. apply imap_ext. intros i l _. simpl. f_equal. lia. }
    destruct (parse_line w (_categories (ext s)) H W idx line) as [box|e] eqn:Hline.
    + rewrite IH. unfold successes, failures; simpl.
      rewrite Hshift. by rewrite <- app_assoc.
    + rewrite IH. unfold successes, failures; simpl.
      rewrite Hshift. unfold report_annotation_error.
      by rewrite extend_trace_log.
Qed.

(** What [_parse_annotations] does in each of its four cases. *)
Lemma parse_annotations_unreadable s anno_path image item :
  read_lines w anno_path = None ->
  _parse_annotations w s anno_path image item
  = (log (OpenFile anno_path) s, Raise (OSError anno_path)).
Proof. intros Hf. unfold _parse_annotations. by rewrite Hf. Qed.

Lemma parse_annotations_blank s anno_path image item f :
  read_lines w anno_path = Some f ->
  collect_lines f = [] ->
  _parse_annotations w s anno_path image item
  = (log (OpenFile anno_path) s, Return []).
Proof. intros Hf Hl. unfold _parse_annotations. by rewrite Hf, Hl. Qed.

Lemma parse_annotations_no_size s anno_path image item f :
  read_lines w anno_path = Some f ->
  collect_lines f <> [] ->
  Image_size w image = None ->
  _parse_annotations w s anno_path image item
  = (extend_trace [OpenFile anno_path; ImageSizeRead (image_path image)] s,
     Raise (DatasetImportError
              ("Can't find image info for '"
               +:+ localize_path w (image_path image) +:+ "'"))).
Proof.
  intros Hf Hl Hsz. unfold _parse_annotations. rewrite Hf.
  destruct (collect_lines f) as [|l ls]; [done|].
  rewrite Hsz. by rewrite !log_extend_trace, extend_trace_app.
Qed.

Lemma parse_annotations_lines s anno_path image item f (H W : Z) :
  read_lines w anno_path = Some f ->
  collect_lines f <> [] ->
  Image_size w image = Some (H, W) ->
  let results := imap (parse_line w (_categories (ext s)) H W) (collect_lines f) in
  _parse_annotations w s anno_path image item
  = (extend_trace
       ([OpenFile anno_path; ImageSizeRead (image_path image);
         ImageSizeRead (image_path image)]
        ++ ((fun e => AnnotationError e item) <$> failures results)) s,
     Return (successes results)).
Proof.
  intros Hf Hl Hsz. unfold _parse_annotations. rewrite Hf.
  destruct (collect_lines f) as [|l ls] eqn:Hls; [done|].
  rewrite Hsz. rewrite parse_loop_spec.
  rewrite !log_extend_trace, !extend_trace_app. reflexivity.
Qed.

(** C4: within one annotation file every collected line is handled on
    its own.  When the file cannot be opened the parser raises and
    reports nothing.  When it can, and the image size is known, the
    outcome of the line at position [i] is [parse_line] of that line
    alone; the boxes returned are the successful outcomes in order, and
    one annotation error with the identity of the owning item is
    reported for each failed outcome, in order, while the lines after
    it are still handled. *)
Theorem parse_annotations_isolates_lines s anno_path image item :
  (read_lines w anno_path = None ->
   _parse_annotations w s anno_path image item
   = (extend_trace [OpenFile anno_path] s, Raise (OSError anno_path)))
  /\ (forall f (H W : Z),
        read_lines w anno_path = Some f ->
        collect_lines f <> [] ->
        Image_size w image = Some (H, W) ->
        let results := imap (parse_line w (_categories (ext s)) H W) (collect_lines f) in
        _parse_annotations w s anno_path image item
        = (extend_trace
             ([OpenFile anno_path; ImageSizeRead (image_path image);
               ImageSizeRead (image_path image)]
              ++ ((fun e => AnnotationError e item) <$> failures results)) s,
           Return (successes results))).
Proof.
  split.
  - intros Hf. by rewrite parse_annotations_unreadable.
  - intros f H W Hf Hl Hsz. by apply parse_annotations_lines.
Qed.

(** A line is blank when stripping leaves nothing of it. *)
Lemma collect_lines_nil (f : list string) :
  collect_lines f = [] <-> Forall (fun line => strip line = EmptyString) f.
Proof.
  induction f as [|line rest IH]; simpl.
  - split; [constructor | done].
  - destruct (strip line) eqn:Hs; simpl.
    + rewrite IH. split; [intros Hrest; by constructor | by inversion 1].
    + split; [done | inversion 1; congruence].
Qed.

(** ** One line *)

(** A line is accepted exactly when it has 9 tokens, the first an
    integer that indexes the categories, the others floats; its box is
    then the rectangle of the scaled, truncated corners. *)
Lemma parse_line_accepts cats (H W : Z) (idx : nat) (line : string)
    (l t1 t2 t3 t4 t5 t6 t7 t8 : string) (label : Z)
    (x1 y1 x2 y2 x3 y3 x4 y4 : F) :
  split line = [l; t1; t2; t3; t4; t5; t6; t7; t8] ->
  py_int w l = Some label ->
  LabelCategories_contains cats label = true ->
  py_float w t1 = Some x1 -> py_float w t2 = Some y1 ->
  py_float w t3 = Some x2 -> py_float w t4 = Some y2 ->
  py_float w t5 = Some x3 -> py_float w t6 = Some y3 ->
  py_float w t7 = Some x4 -> py_float w t8 = Some y4 ->
  parse_line w cats H W idx line
  = Return (box_of_rect (minAreaRect w (contour_of w H W x1 y1 x2 y2 x3 y3 x4 y4))
                        label idx).
Proof.
  intros Hsplit Hl Hin H1 H2 H3 H4 H5 H6 H7 H8.
  unfold parse_line. rewrite Hsplit. simpl.
  unfold _parse_field. rewrite Hl. simpl. rewrite Hin. simpl.
  rewrite H1, H2, H3, H4, H5, H6, H7, H8. simpl.
  unfold contour_of. simpl.
  by destruct (minAreaRect w _) as [[[x y] [bw bh]] r].
Qed.

Lemma parse_line_accepted cats (H W : Z) (idx : nat) (line : string) b :
  parse_line w cats H W idx line = Return b ->
  exists (l t1 t2 t3 t4 t5 t6 t7 t8 : string) (label : Z)
         (x1 y1 x2 y2 x3 y3 x4 y4 : F),
    split line = [l; t1; t2; t3; t4; t5; t6; t7; t8]
    /\ py_int w l = Some label
    /\ LabelCategories_contains cats label = true
    /\ (py_float w t1 = Some x1 /\ py_float w t2 = Some y1
        /\ py_float w t3 = Some x2 /\ py_float w t4 = Some y2
        /\ py_float w t5 = Some x3 /\ py_float w t6 = Some y3
        /\ py_float w t7 = Some x4 /\ py_float w t8 = Some y4)
    /\ b = box_of_rect (minAreaRect w (contour_of w H W x1 y1 x2 y2 x3 y3 x4 y4))
                       label idx.
Proof.
  unfold parse_line.
  destruct (split line)
    as [|l [|t1 [|t2 [|t3 [|t4 [|t5 [|t6 [|t7 [|t8 [|t9 rest]]]]]]]]]];
    simpl; try discriminate.
  unfold _parse_field.
  destruct (py_int w l) as [label|] eqn:Hl; simpl; [|discriminate].
  destruct (LabelCategories_contains cats label) eqn:Hin; simpl; [|discriminate].
  destruct (py_float w t1) as [x1|] eqn:H1; simpl; [|discriminate].
  destruct (py_float w t2) as [y1|] eqn:H2; simpl; [|discriminate].
  destruct (py_float w t3) as [x2|] eqn:H3; simpl; [|discriminate].
  destruct (py_float w t4) as [y2|] eqn:H4; simpl; [|discriminate].
  destruct (py_float w t5) as [x3|] eqn:H5; simpl; [|discriminate].
  destruct (py_float w t6) as [y3|] eqn:H6; simpl; [|discriminate].
  destruct (py_float w t7) as [x4|] eqn:H7; simpl; [|discriminate].
  destruct (py_float w t8) as [y4|] eqn:H8; simpl; [|discriminate].
  intros Hb.
  exists l, t1, t2, t3, t4, t5, t6, t7, t8, label, x1, y1, x2, y2, x3, y3, x4, y4.
  repeat split; try done.
  unfold contour_of; simpl.
  destruct (minAreaRect w _) as [[[x y] [bw bh]] r]. by inversion Hb.
Qed.

Lemma parse_line_ordinal cats (H W : Z) (idx : nat) (line : string) b :
  parse_line w cats H W idx line = Return b ->
  bbox_id b = idx /\ bbox_group b = idx.
Proof.
  intros Hb. apply parse_line_accepted in Hb.
  destruct Hb as (l & t1 & t2 & t3 & t4 & t5 & t6 & t7 & t8 & label
                  & x1 & y1 & x2 & y2 & x3 & y3 & x4 & y4 & _ & _ & _ & _ & ->).
  done.
Qed.

(** The boxes of a list of outcomes come from the lines at their
    positions. *)
Lemma successes_origin cats (H W : Z) (lines : list string) b :
  b ∈ successes (imap (parse_line w cats H W) lines) ->
  exists i line, lines !! i = Some line /\ parse_line w cats H W i line = Return b.
Proof.
  unfold successes. rewrite list_elem_of_omap.
  intros (r & Hr & Hb). destruct r as [b'|e]; [|done].
  injection Hb as ->.
  apply list_elem_of_lookup in Hr as [i Hi].
  rewrite list_lookup_imap in Hi.
  destruct (lines !! i) as [line|] eqn:Hline; [|done].
  injection Hi as Hi. by exists i, line.
Qed.

Lemma successes_emitted cats (H W : Z) (lines : list string) (i : nat) line b :
  lines !! i = Some line ->
  parse_line w cats H W i line = Return b ->
  b ∈ successes (imap (parse_line w cats H W) lines).
Proof.
  intros Hline Hb. unfold successes. rewrite list_elem_of_omap.
  exists (Return b). split; [|done].
  apply list_elem_of_lookup. exists i.
  by rewrite list_lookup_imap, Hline; simpl; rewrite Hb.
Qed.

(** C5: every box that the parser returns carries, as its id and as its
    group, the 0-based position of its line among the lines collected
    from the file, that is after the blank lines are dropped; the box is
    the outcome of that very line at that position, whatever became of
    the lines before it. *)
Theorem ordinal_is_position_among_collected_lines
    s anno_path image item f s' (boxes : list (Bbox F)) :
  read_lines w anno_path = Some f ->
  _parse_annotations w s anno_path image item = (s', Return boxes) ->
  forall b, b ∈ boxes ->
    bbox_group b = bbox_id b
    /\ exists H W : Z,
         Image_size w image = Some (H, W)
         /\ ordinal_is_collected_position w (_categories (ext s)) H W f b.
Proof.
  intros Hf Hparse b Hb.
  destruct (decide (collect_lines f = [])) as [Hnil|Hne].
  { rewrite (parse_annotations_blank _ _ _ _ f) in Hparse by done.
    injection Hparse as _ <-. by apply elem_of_nil in Hb. }
  destruct (Image_size w image) as [[H W]|] eqn:Hsz.
  2:{ rewrite (parse_annotations_no_size _ _ _ _ f) in Hparse by done. done. }
  rewrite (parse_annotations_lines _ _ _ _ f H W) in Hparse by done.
  injection Hparse as _ <-.
  apply successes_origin in Hb as (i & line & Hline & Hb).
  destruct (parse_line_ordinal _ _ _ _ _ _ Hb) as [Hid Hgroup].
  split; [congruence|].
  exists H, W. split; [done|].
  exists line. by rewrite Hid.
Qed.

(** C6: when no line of the file is left after stripping, the parser
    returns the empty list and the only thing it has done is to open
    the file: the size of the image is not read.  When some line is
    left and the image has no size, the parser raises
    [DatasetImportError] after reading the size once, before any line
    is handled: no box and no annotation error comes out. *)
Theorem size_is_read_only_for_nonblank_files s anno_path image item f :
  read_lines w anno_path = Some f ->
  (Forall (fun line => strip line = EmptyString) f ->
   _parse_annotations w s anno_path image item
   = (extend_trace [OpenFile anno_path] s, Return []))
  /\ (Exists (fun line => strip line <> EmptyString) f ->
      Image_size w image = None ->
      exists msg,
        _parse_annotations w s anno_path image item
        = (extend_trace [OpenFile anno_path; ImageSizeRead (image_path image)] s,
           Raise (DatasetImportError msg))).
Proof.
  intros Hf. split.
  - intros Hblank. apply collect_lines_nil in Hblank.
    by rewrite (parse_annotations_blank _ _ _ _ f).
  - intros Hsome Hsz. eexists.
    apply (parse_annotations_no_size _ _ _ _ f); [done| |done].
    rewrite collect_lines_nil. intros Hall.
    apply Exists_exists in Hsome as (line & Hin & Hline).
    rewrite Forall_forall in Hall. by apply Hline, Hall.
Qed.

Lemma contour_of_in_int32 (H W : Z) (x1 y1 x2 y2 x3 y3 x4 y4 : F) :
  Forall in_int32 (contour_of w H W x1 y1 x2 y2 x3 y3 x4 y4).
Proof.
  unfold contour_of. simpl.
  repeat constructor; apply astype_int32_range.
Qed.

(** The box of an accepted line is made from the truncated corners of
    the line and from nothing else of its coordinates. *)
Lemma parse_line_contour cats (H W : Z) (idx : nat) (line : string) b :
  parse_line w cats H W idx line = Return b ->
  exists (c : list (Z * Z)) (label : Z),
    truncated_corners w H W line = Some c
    /\ Forall in_int32 c
    /\ b = box_of_rect (minAreaRect w c) label idx.
Proof.
  intros Hb. apply parse_line_accepted in Hb.
  destruct Hb as (l & t1 & t2 & t3 & t4 & t5 & t6 & t7 & t8 & label
                  & x1 & y1 & x2 & y2 & x3 & y3 & x4 & y4
                  & Hsplit & _ & _ & (H1 & H2 & H3 & H4 & H5 & H6 & H7 & H8) & ->).
  exists (contour_of w H W x1 y1 x2 y2 x3 y3 x4 y4), label.
  split; [|split; [apply contour_of_in_int32 | done]].
  unfold truncated_corners, scaled_corners. rewrite Hsplit.
  rewrite H1, H2, H3, H4, H5, H6, H7, H8. reflexivity.
Qed.

(** C9: the contour that reaches [minAreaRect] consists of the scaled
    corners cast to int32, each coordinate within the 32-bit range, and
    the five numbers of the box are the rectangle of that contour.  So
    two accepted lines, read against the same image size, whose scaled
    corners truncate to the same integers get the same
    (x, y, w, h, angle). *)
Theorem geometry_depends_on_truncated_corners
    cats (H W : Z) (idx1 idx2 : nat) (line1 line2 : string) (b1 b2 : Bbox F) :
  parse_line w cats H W idx1 line1 = Return b1 ->
  parse_line w cats H W idx2 line2 = Return b2 ->
  (exists c : list (Z * Z),
      truncated_corners w H W line1 = Some c
      /\ Forall in_int32 c
      /\ bbox_geometry b1 = rect_geometry (minAreaRect w c))
  /\ (truncated_corners w H W line1 = truncated_corners w H W line2 ->
      bbox_geometry b1 = bbox_geometry b2).
Proof.
  intros Hb1 Hb2.
  apply parse_line_contour in Hb1 as (c1 & label1 & Hc1 & Hrange1 & ->).
  apply parse_line_contour in Hb2 as (c2 & label2 & Hc2 & _ & ->).
  split.
  - by exists c1.
  - rewrite Hc1, Hc2. intros [= ->]. reflexivity.
Qed.

(** C10: a line of 9 tokens whose first token is an integer that indexes
    the categories and whose other tokens are floats is accepted,
    whatever the values of the floats: nothing compares them with 0 or
    1.  Its box is the rectangle of the scaled corners, and the parser
    returns it among the boxes of the file. *)
Theorem out_of_range_coordinates_are_accepted
    s anno_path image item f (H W : Z) (i : nat) (line : string)
    (l t1 t2 t3 t4 t5 t6 t7 t8 : string) (label : Z)
    (x1 y1 x2 y2 x3 y3 x4 y4 : F) :
  read_lines w anno_path = Some f ->
  Image_size w image = Some (H, W) ->
  collect_lines f !! i = Some line ->
  split line = [l; t1; t2; t3; t4; t5; t6; t7; t8] ->
  py_int w l = Some label ->
  LabelCategories_contains (_categories (ext s)) label = true ->
  py_float w t1 = Some x1 -> py_float w t2 = Some y1 ->
  py_float w t3 = Some x2 -> py_float w t4 = Some y2 ->
  py_float w t5 = Some x3 -> py_float w t6 = Some y3 ->
  py_float w t7 = Some x4 -> py_float w t8 = Some y4 ->
  let b := box_of_rect (minAreaRect w (contour_of w H W x1 y1 x2 y2 x3 y3 x4 y4))
                       label i in
  parse_line w (_categories (ext s)) H W i line = Return b
  /\ exists s' (boxes : list (Bbox F)),
       _parse_annotations w s anno_path image item = (s', Return boxes)
       /\ b ∈ boxes.
Proof.
  intros Hf Hsz Hline Hsplit Hl Hin H1 H2 H3 H4 H5 H6 H7 H8 b.
  assert (Hb : parse_line w (_categories (ext s)) H W i line = Return b)
    by (by apply (parse_line_accepts _ _ _ _ _ l t1 t2 t3 t4 t5 t6 t7 t8)).
  split; [done|].
  assert (Hne : collect_lines f <> []).
  { intros Hnil. by rewrite Hnil in Hline. }
  rewrite (parse_annotations_lines _ _ _ _ f H W) by done.
  eexists _, _. split; [reflexivity|].
  by apply (successes_emitted _ _ _ _ i line).
Qed.

(** ** The lazy cache *)

Lemma assoc_replace_value (key : string) (v e : Entry F) (l : list (string * Entry F)) :
  assoc key l = Some e ->
  exists l', replace_value key v l = Some l' /\ assoc key l' = Some v.
Proof.
  induction l as [|[k v'] rest IH]; simpl; [done|].
  destruct (String.eqb key k) eqn:Hk.
  - intros _. eexists. split; [done|]. simpl. by rewrite Hk.
  - intros He. destruct (IH He) as (l' & -> & Hl'). simpl.
    eexists. split; [done|]. simpl. by rewrite Hk.
Qed.

Lemma assoc_filter_out (key : string) (l : list (string * Entry F)) :
  assoc key (filter (fun kv => negb (String.eqb key kv.1)) l) = None.
Proof.
  induction l as [|[k v] rest IH]; simpl; [done|].
  rewrite filter_cons. simpl.
  destruct (String.eqb key k) eqn:Hk; simpl.
  - exact IH.
  - by rewrite Hk.
Qed.

Lemma od_get_set (key : string) (v e : Entry F) (od : ODict F) :
  od_get key od = Some e ->
  od_get key (od_set key v od) = Some v
  /\ od_state (od_set key v od) = od_state od.
Proof.
  unfold od_get, od_set. intros He.
  destruct (assoc_replace_value key v e _ He) as (l' & -> & Hl'). done.
Qed.

Lemma od_pop_present (key : string) (e : Entry F) (od : ODict F) :
  od_get key od = Some e ->
  exists od', od_pop key od = Some od'
    /\ od_get key od' = None
    /\ od_state od' = S (od_state od).
Proof.
  intros He. unfold od_pop. rewrite He. eexists. split; [done|].
  split; [|done]. unfold od_get; simpl. apply assoc_filter_out.
Qed.

(** The parser raises for the file and for the image only: neither of
    the two annotation errors leaves it. *)
Lemma parse_annotations_raises s anno_path image item s' e :
  _parse_annotations w s anno_path image item = (s', Raise e) ->
  is_annotation_error e = false.
Proof.
  unfold _parse_annotations.
  destruct (read_lines w anno_path) as [f|]; [|by intros [= _ <-]].
  destruct (collect_lines f) as [|l ls]; [done|].
  destruct (Image_size w image) as [[H W]|]; [|by intros [= _ <-]].
  by destruct (parse_loop _ _ _ _ _ _ _ _).
Qed.

(** So the first handler of [_get] is never entered. *)
Lemma resolve_raises s item_id subset_name filename s' e :
  resolve w s item_id subset_name filename = (s', Raise e) ->
  is_annotation_error e = false.
Proof.
  unfold resolve.
  destruct (_parse_annotations _ _ _ _ _) as [s1 [parsed|e1]] eqn:Hparse; simpl.
  - destruct parsed as [|b1 [|b2 [|b3 rest]]]; simpl; try by intros [= _ <-].
    destruct (DatasetItem_annotations w b1); [done | by intros [= _ <-]].
  - intros [= _ <-]. by apply parse_annotations_raises in Hparse.
Qed.

(** The unpacking [annotations, angle = ...] of the list of boxes fails
    unless there are exactly two of them, and the entry is evicted. *)
Lemma get_evicts_unless_two_boxes
    s item_id subset_name (od : ODict F) filename s1 (boxes : list (Bbox F)) :
  _subsets s !! subset_name = Some od ->
  od_get item_id od = Some (Placeholder filename) ->
  _parse_annotations w s (entry_anno_path w s item_id filename)
    (entry_image w s item_id filename) (item_id, subset_name) = (s1, Return boxes) ->
  length boxes <> 2%nat ->
  exists msg od',
    od_pop item_id od = Some od'
    /\ _get w s item_id subset_name
       = (set_subset subset_name od'
            (report_item_error (ValueError msg) (item_id, subset_name) s1),
          Return None).
Proof.
  intros Hsub Hget Hparse Hlen.
  destruct (od_pop_present _ _ _ Hget) as (od' & Hpop & _ & _).
  unfold _get. rewrite Hsub, Hget. unfold resolve. rewrite Hparse. simpl.
  destruct boxes as [|b1 [|b2 [|b3 rest]]]; simpl in *; try done;
    rewrite Hpop; by eexists _, _.
Qed.

(** An eviction changes the modification counter of the dictionary. *)
Lemma get_None_modifies s item_id subset_name (od : ODict F) s' :
  _subsets s !! subset_name = Some od ->
  _get w s item_id subset_name = (s', Return None) ->
  exists od', _subsets s' !! subset_name = Some od'
    /\ od_get item_id od' = None
    /\ od_state od' = S (od_state od).
Proof.
  intros Hsub. unfold _get. rewrite Hsub.
  destruct (od_get item_id od) as [[filename|item]|] eqn:Hget; [|done..].
  destruct (resolve w s item_id subset_name filename) as [s1 [item|e]]; [done|].
  destruct (is_annotation_error e); [done|].
  destruct (od_pop_present _ _ _ Hget) as (od' & -> & Hnone & Hstate).
  intros [= <-]. exists od'. split; [|done].
  unfold set_subset; simpl. apply lookup_insert_eq.
Qed.

(** The iteration does not survive the eviction of an entry that is
    not the last one: the next step of the loop finds the dictionary
    modified. *)
Lemma iter_aborts_after_eviction
    s subset_name (od : ODict F) (k k' : string) (rest : list string) s' :
  _subsets s !! subset_name = Some od ->
  od_keys od = k :: k' :: rest ->
  _get w s k subset_name = (s', Return None) ->
  Subset_iter w s subset_name
  = (s', [], Some (RuntimeError "OrderedDict mutated during iteration")).
Proof.
  intros Hsub Hkeys Hget.
  destruct (get_None_modifies _ _ _ _ _ Hsub Hget) as (od' & Hsub' & _ & Hstate).
  unfold Subset_iter. rewrite Hsub, Hkeys. simpl.
  rewrite Hsub, Nat.eqb_refl. simpl. rewrite Hget, Hsub'.
  rewrite Hstate.
  destruct (Nat.eqb (S (od_state od)) (od_state od)) eqn:Heq; [|done].
  apply Nat.eqb_eq in Heq. lia.
Qed.

(** ** The category loader *)

Lemma add_all_fresh (label_names : list yaml_scalar) :
  forall cats : LabelCategories,
    NoDup (cats ++ label_names) ->
    add_all cats label_names = Return (cats ++ label_names).
Proof.
  induction label_names as [|name rest IH]; intros cats Hnd; simpl.
  - by rewrite app_nil_r.
  - unfold LabelCategories_add.
    apply NoDup_app in Hnd as Hparts. destruct Hparts as (_ & Hdisj & _).
    destruct (decide (name ∈ cats)) as [Hin|Hnotin].
    { exfalso. apply (Hdisj name Hin). by left. }
    simpl. rewrite IH; by rewrite <- app_assoc.
Qed.

(** C7: when no meta file stands in for it, the category file is read
    and the value of its key [names] decides.  A list of distinct names
    gives the categories in list order, so that the id of each label is
    its position in the list.  A mapping with distinct values gives the
    values of the mapping in the order in which it iterates.  Any other
    value raises [DatasetImportError], and a constructor that loads
    this file raises: no extractor comes out of it. *)
Theorem load_categories_by_shape names_path fields names :
  has_meta_file w (osp_dirname w names_path) = false ->
  read_yaml w names_path = Return (YDoc fields) ->
  assoc "names" fields = Some names ->
  (forall l, names = YList l -> NoDup l ->
     _load_categories w names_path = Return l)
  /\ (forall m, names = YDict m -> NoDup m.*2 ->
        _load_categories w names_path = Return m.*2)
  /\ (forall v, names = YScalar v ->
        _load_categories w names_path
        = Raise (DatasetImportError
                   ("Can't read dataset category file '" +:+ names_path +:+ "'"))
        /\ forall config_path image_info urls subset,
             osp_join w (_get_rootpath config_path) (META_FILE w) = names_path ->
             exists e, __init__ w config_path image_info urls subset = Raise e).
Proof.
  intros Hmeta Hyaml Hnames.
  assert (Hload : forall v, names = v ->
    _load_categories w names_path
    = (label_names ←
         match v with
         | YList l => Return l
         | YDict m => Return m.*2
         | YScalar _ =>
             Raise (DatasetImportError
                      ("Can't read dataset category file '" +:+ names_path +:+ "'"))
         end;
       add_all [] label_names)).
  { intros v <-. unfold _load_categories. rewrite Hmeta, Hyaml. simpl.
    by rewrite Hnames. }
  split; [|split].
  - intros l Hl Hnd. rewrite (Hload _ Hl). simpl. by apply add_all_fresh.
  - intros m Hm Hnd. rewrite (Hload _ Hm). simpl. by apply add_all_fresh.
  - intros v Hv. rewrite (Hload _ Hv). split; [done|].
    intros config_path image_info urls subset Hpath.
    unfold __init__.
    destruct (osp_isdir w config_path); simpl; [|by eexists].
    destruct urls as [[|url urls]|]; [by eexists| |by eexists].
    destruct (parse_image_info w _ image_info) as [info|e]; simpl; [|by eexists].
    rewrite Hpath, (Hload _ Hv). simpl. by eexists.
Qed.

End Properties.

(** * The properties on the samples *)

(** C1: a file with one good line and one line of 8 tokens.  The parser
    returns the one surviving box, and [_get] then fails to unpack the
    list into two names: the entry is reported as an item error and
    evicted, and nothing is returned, even where the constructor of
    [DatasetItem] would take what it is given. *)
Theorem get_on_single_surviving_box_evicts :
  (_parse_annotations lenient_world one_state "root/one.txt" (sample_image "one")
     ("one", "train")).2 = Return [square_box 0]
  /\ _get lenient_world one_state "one" "train"
     = ({| ext := sample_ext;
           _subsets := {[ "train" := {| od_items := []; od_state := 1 |} ]};
           trace := [ OpenFile "root/one.txt";
                      ImageSizeRead "root/one.jpg"; ImageSizeRead "root/one.jpg";
                      AnnotationError field_count_8 ("one", "train");
                      ItemError
                        (ValueError "not enough values to unpack (expected 2, got 1)")
                        ("one", "train") ] |},
        Return None).
Proof. split; vm_compute; reflexivity. Qed.

(** C2: a subset of two entries, the first without an annotation file
    that opens.  The first entry is reported and evicted; the next step
    of the loop raises [RuntimeError], which leaves the generator, and
    the second entry, which alone would be yielded, is never reached. *)
Theorem iteration_aborts_after_bad_entry :
  Subset_iter lenient_world missing_two_state "train"
  = ({| ext := sample_ext;
        _subsets := {[ "train" := {| od_items := [("two", Placeholder "two.jpg")];
                                     od_state := 1 |} ]};
        trace := [ OpenFile "root/missing.txt";
                   ItemError (OSError "root/missing.txt") ("missing", "train") ] |},
     [],
     Some (RuntimeError "OrderedDict mutated during iteration"))
  /\ (Subset_iter lenient_world two_state "train").1.2
     = [ {| item_id := "two"; item_subset := "train";
            item_media := sample_image "two";
            item_annotations := [square_box 0] |} ]
  /\ (Subset_iter lenient_world two_state "train").2 = None.
Proof. repeat split; vm_compute; reflexivity. Qed.

(** C3, as stated, fails: after the eviction of [missing] a later
    [_get] of the same id does not return nothing, it raises
    [KeyError]. *)
Lemma later_get_of_evicted_id_raises :
  (_get sample_world missing_state "missing" "train").2 = Return None
  /\ (_get sample_world (_get sample_world missing_state "missing" "train").1
        "missing" "train").2 = Raise (KeyError "missing")
  /\ (_get sample_world (_get sample_world missing_state "missing" "train").1
        "missing" "train").2 <> Return None.
Proof.
  split; [|split].
  - vm_compute; reflexivity.
  - vm_compute; reflexivity.
  - vm_compute; discriminate.
Qed.

Lemma parse_annotations_isolates_lines_witness :
  _parse_annotations sample_world one_state "root/none.txt" (sample_image "none")
    ("none", "train")
  = (extend_trace [OpenFile "root/none.txt"] one_state, Raise (OSError "root/none.txt"))
  /\ _parse_annotations sample_world two_state "root/two.txt" (sample_image "two")
       ("two", "train")
     = (extend_trace
          [ OpenFile "root/two.txt";
            ImageSizeRead "root/two.jpg"; ImageSizeRead "root/two.jpg";
            AnnotationError (UndeclaredLabelError "7") ("two", "train") ] two_state,
        Return [square_box 0; wide_box 2]).
Proof.
  split.
  - apply (parse_annotations_isolates_lines sample_world one_state "root/none.txt"
             (sample_image "none") ("none", "train")).
    vm_compute; reflexivity.
  - rewrite (proj2 (parse_annotations_isolates_lines sample_world two_state
                      "root/two.txt" (sample_image "two") ("two", "train"))
               [square; undeclared; wide] 100 100).
    + vm_compute; reflexivity.
    + vm_compute; reflexivity.
    + vm_compute; discriminate.
    + vm_compute; reflexivity.
Defined.

(** C5, as stated, fails: in [blank.txt] the box comes from the second
    line of the file, and its ordinal is 0, the position of a blank
    line. *)
Lemma ordinal_is_not_file_position :
  sample_files "root/blank.txt" = Some [" "; square]
  /\ (_parse_annotations sample_world one_state "root/blank.txt"
        (sample_image "blank") ("blank", "train")).2 = Return [square_box 0]
  /\ bbox_id (square_box 0) = 0%nat
  /\ ~ ordinal_is_file_position sample_world (_categories sample_ext) 100 100
         [" "; square] (square_box 0).
Proof.
  repeat split; try (vm_compute; reflexivity).
  intros (line & Hline & Hparse).
  vm_compute in Hline. injection Hline as <-.
  vm_compute in Hparse. discriminate.
Qed.

Lemma ordinal_is_position_witness :
  (_parse_annotations sample_world two_state "root/two.txt" (sample_image "two")
     ("two", "train")).2 = Return [square_box 0; wide_box 2]
  /\ bbox_id (wide_box 2) = 2%nat
  /\ bbox_group (wide_box 2) = bbox_id (wide_box 2)
  /\ exists H W : Z,
       Image_size sample_world (sample_image "two") = Some (H, W)
       /\ ordinal_is_collected_position sample_world (_categories (ext two_state))
            H W [square; undeclared; wide] (wide_box 2).
Proof.
  split; [vm_compute; reflexivity|].
  split; [reflexivity|].
  apply (ordinal_is_position_among_collected_lines sample_world two_state
           "root/two.txt" (sample_image "two") ("two", "train")
           [square; undeclared; wide]
           (_parse_annotations sample_world two_state "root/two.txt"
              (sample_image "two") ("two", "train")).1
           [square_box 0; wide_box 2]).
  - vm_compute; reflexivity.
  - vm_compute; reflexivity.
  - right; left.
Defined.

Lemma size_is_read_only_witness :
  _parse_annotations sample_world one_state "root/empty.txt" (unsized_image "empty")
    ("empty", "train")
  = (extend_trace [OpenFile "root/empty.txt"] one_state, Return [])
  /\ exists msg,
       _parse_annotations sample_world one_state "root/one.txt" (unsized_image "lost")
         ("one", "train")
       = (extend_trace [OpenFile "root/one.txt"; ImageSizeRead "root/lost.jpg"] one_state,
          Raise (DatasetImportError msg)).
Proof.
  split.
  - apply (size_is_read_only_for_nonblank_files sample_world one_state
             "root/empty.txt" (unsized_image "empty") ("empty", "train")
             [EmptyString; "  "]).
    + vm_compute; reflexivity.
    + repeat constructor.
  - apply (size_is_read_only_for_nonblank_files sample_world one_state
             "root/one.txt" (unsized_image "lost") ("one", "train")
             [square; short]).
    + vm_compute; reflexivity.
    + left. vm_compute. discriminate.
    + vm_compute; reflexivity.
Defined.

Lemma load_categories_witness :
  _load_categories sample_world "root/data.yaml" = Return [YStr "a"; YStr "b"; YStr "c"]
  /\ _load_categories sample_world "ids/data.yaml" = Return [YStr "a"; YStr "b"]
  /\ _load_categories sample_world "bad/data.yaml"
     = Raise (DatasetImportError "Can't read dataset category file 'bad/data.yaml'")
  /\ exists e, __init__ sample_world "bad" InfoNone (Some ["bad/obj/1.jpg"]) None = Raise e.
Proof.
  split; [|split; [|split]].
  - apply (proj1 (load_categories_by_shape sample_world "root/data.yaml"
                    [("names", YList [YStr "a"; YStr "b"; YStr "c"])]
                    (YList [YStr "a"; YStr "b"; YStr "c"])
                    eq_refl eq_refl eq_refl)).
    + reflexivity.
    + apply (bool_decide_unpack _). vm_compute. exact I.
  - apply (proj1 (proj2 (load_categories_by_shape sample_world "ids/data.yaml"
                           [("names", YDict [(YInt 0, YStr "a"); (YInt 1, YStr "b")])]
                           (YDict [(YInt 0, YStr "a"); (YInt 1, YStr "b")])
                           eq_refl eq_refl eq_refl))
             [(YInt 0, YStr "a"); (YInt 1, YStr "b")]).
    + reflexivity.
    + apply (bool_decide_unpack _). vm_compute. exact I.
  - apply (proj2 (proj2 (load_categories_by_shape sample_world "bad/data.yaml"
                           [("names", YScalar (YStr "a"))] (YScalar (YStr "a"))
                           eq_refl eq_refl eq_refl))
             (YStr "a") eq_refl).
  - apply (proj2 (proj2 (load_categories_by_shape sample_world "bad/data.yaml"
                           [("names", YScalar (YStr "a"))] (YScalar (YStr "a"))
                           eq_refl eq_refl eq_refl))
             (YStr "a") eq_refl).
    reflexivity.
Defined.

Lemma geometry_depends_on_truncated_corners_witness :
  parse_line sample_world (_categories sample_ext) 100 100 0 square_low
  = Return (square_box 0)
  /\ truncated_corners sample_world 100 100 square_low
     = Some [(25, 25); (75, 25); (75, 75); (25, 75)]
  /\ bbox_geometry (square_box 0)
     = bbox_geometry (box_of_rect (sample_rect [(25, 25); (75, 25); (75, 75); (25, 75)])
                                  1 3).
Proof.
  split; [vm_compute; reflexivity|].
  split; [vm_compute; reflexivity|].
  apply (geometry_depends_on_truncated_corners sample_world (_categories sample_ext)
           100 100 0 3 square_low square_high).
  - vm_compute; reflexivity.
  - vm_compute; reflexivity.
  - vm_compute; reflexivity.
Defined.

Lemma out_of_range_coordinates_witness :
  parse_line sample_world (_categories (ext two_state)) 100 100 2 wide
  = Return (wide_box 2)
  /\ exists s' (boxes : list (Bbox decimal)),
       _parse_annotations sample_world two_state "root/two.txt" (sample_image "two")
         ("two", "train") = (s', Return boxes)
       /\ wide_box 2 ∈ boxes.
Proof.
  apply (out_of_range_coordinates_are_accepted sample_world two_state "root/two.txt"
           (sample_image "two") ("two", "train") [square; undeclared; wide]
           100 100 2 wide
           "1" "-0.5" "0.1" "1.5" "0.1" "1.5" "0.9" "-0.5" "0.9" 1
           (dec (-5) 1) (dec 1 1) (dec 15 1) (dec 1 1)
           (dec 15 1) (dec 9 1) (dec (-5) 1) (dec 9 1));
    vm_compute; reflexivity.
Defined.

(** The ordinals of the boxes of one file need not be contiguous: in
    [two.txt] the line between the two boxes is refused. *)
Example surviving_ordinals_skip_refused_lines :
  bbox_id <$> successes (imap (parse_line sample_world (_categories sample_ext) 100 100)
                           (collect_lines [square; undeclared; wide]))
  = [0%nat; 2%nat].
Proof. vm_compute; reflexivity. Qed.

(** The reader of [__iter__] keeps the list of [_parse_annotations] as
    it is: the same file with one surviving box gives an item with that
    box. *)
Example extractor_iter_keeps_the_list :
  (Extractor_iter sample_world url_state).2
  = [ {| item_id := "one"; item_subset := "train";
         item_media := unsized_image "one";
         item_annotations := [square_box 0] |} ].
Proof. vm_compute; reflexivity. Qed.

(** * Further properties *)

Section ParserProperties.

Context {F : Type} (w : World F).

Implicit Types (s : State F) (b : Bbox F) (image : Image) (item : string * string).

(** The four ways through [_parse_annotations]. *)
Lemma parse_annotations_cases s anno_path image item :
  (read_lines w anno_path = None
   /\ _parse_annotations w s anno_path image item
      = (extend_trace [OpenFile anno_path] s, Raise (OSError anno_path)))
  \/ (exists f, read_lines w anno_path = Some f /\ collect_lines f = []
      /\ _parse_annotations w s anno_path image item
         = (extend_trace [OpenFile anno_path] s, Return []))
  \/ (exists f msg, read_lines w anno_path = Some f /\ collect_lines f <> []
      /\ Image_size w image = None
      /\ _parse_annotations w s anno_path image item
         = (extend_trace [OpenFile anno_path; ImageSizeRead (image_path image)] s,
            Raise (DatasetImportError msg)))
  \/ (exists f (H W : Z), read_lines w anno_path = Some f /\ collect_lines f <> []
      /\ Image_size w image = Some (H, W)
      /\ _parse_annotations w s anno_path image item
         = (extend_trace
              ([OpenFile anno_path; ImageSizeRead (image_path image);
                ImageSizeRead (image_path image)]
               ++ ((fun e => AnnotationError e item)
                     <$> failures (imap (parse_line w (_categories (ext s)) H W)
                                        (collect_lines f)))) s,
            Return (successes (imap (parse_line w (_categories (ext s)) H W)
                                    (collect_lines f))))).
Proof.
  destruct (read_lines w anno_path) as [f|] eqn:Hf.
  2:{ left. split; [done|]. by apply parse_annotations_unreadable. }
  right. destruct (decide (collect_lines f = [])) as [Hnil|Hne].
  { left. exists f. repeat split; try done. by apply (parse_annotations_blank _ _ _ _ _ f). }
  right. destruct (Image_size w image) as [[H W]|] eqn:Hsz.
  - right. exists f, H, W. repeat split; try done.
    by apply parse_annotations_lines.
  - left. eexists f, _. repeat split; try done.
    by apply (parse_annotations_no_size _ _ _ _ _ f).
Qed.

(** Every exception of the body of the loop is one of the two
    annotation errors. *)
Lemma parse_line_raises cats (H W : Z) (idx : nat) (line : string) e :
  parse_line w cats H W idx line = Raise e -> is_annotation_error e = true.
Proof.
  unfold parse_line.
  destruct (split line)
    as [|l [|t1 [|t2 [|t3 [|t4 [|t5 [|t6 [|t7 [|t8 [|t9 rest]]]]]]]]]];
    simpl; try by intros [= <-].
  unfold _parse_field.
  destruct (py_int w l) as [label|]; simpl; [|by intros [= <-]].
  destruct (LabelCategories_contains cats label); simpl; [|by intros [= <-]].
  destruct (py_float w t1); simpl; [|by intros [= <-]].
  destruct (py_float w t2); simpl; [|by intros [= <-]].
  destruct (py_float w t3); simpl; [|by intros [= <-]].
  destruct (py_float w t4); simpl; [|by intros [= <-]].
  destruct (py_float w t5); simpl; [|by intros [= <-]].
  destruct (py_float w t6); simpl; [|by intros [= <-]].
  destruct (py_float w t7); simpl; [|by intros [= <-]].
  destruct (py_float w t8); simpl; [|by intros [= <-]].
  by destruct (minAreaRect w _) as [[[x y] [bw bh]] r].
Qed.

Lemma failures_raised cats (H W : Z) (lines : list string) e :
  e ∈ failures (imap (parse_line w cats H W) lines) ->
  exists i line, lines !! i = Some line /\ parse_line w cats H W i line = Raise e.
Proof.
  unfold failures. rewrite list_elem_of_omap.
  intros (r & Hr & He). destruct r as [b|e']; [done|].
  injection He as ->.
  apply list_elem_of_lookup in Hr as [i Hi].
  rewrite list_lookup_imap in Hi.
  destruct (lines !! i) as [line|] eqn:Hline; [|done].
  injection Hi as Hi. by exists i, line.
Qed.

(** The events of one call of the parser. *)
Lemma parse_annotations_events s anno_path image item s' r :
  _parse_annotations w s anno_path image item = (s', r) ->
  exists evs, s' = extend_trace evs s
    /\ Forall (parser_event anno_path image item) evs.
Proof.
  intros Hparse.
  destruct (parse_annotations_cases s anno_path image item)
    as [[_ Heq]|[(f & _ & _ & Heq)|[(f & msg & _ & _ & _ & Heq)
       |(f & H & W & _ & _ & _ & Heq)]]];
    rewrite Heq in Hparse; injection Hparse as <- <-;
    eexists; (split; [reflexivity|]).
  - by repeat constructor.
  - by repeat constructor.
  - by repeat constructor.
  - simpl. do 3 (constructor; [done|]).
    apply Forall_fmap, Forall_forall. intros e He. simpl.
    apply failures_raised in He as (i & line & _ & He).
    split; [done|]. by apply parse_line_raises in He.
Qed.

Lemma parser_events_no_item_report anno_path image item (evs : list Event) :
  Forall (parser_event anno_path image item) evs -> item_reports evs = [].
Proof.
  unfold item_reports.
  induction 1 as [|ev evs Hev _ IH]; csimpl; [done|].
  rewrite IH. by destruct ev.
Qed.

(** X1: a call of the parser changes nothing but the trace, and what it
    appends is limited: the opening of its own file, reads of the size
    of its own image, and annotation errors, each for the item it was
    called for and each an [InvalidAnnotationError] or an
    [UndeclaredLabelError].  It never reports an item error and never
    touches the subsets. *)
Theorem parser_only_extends_the_trace s anno_path image item s' r :
  _parse_annotations w s anno_path image item = (s', r) ->
  ext s' = ext s
  /\ _subsets s' = _subsets s
  /\ exists evs, trace s' = trace s ++ evs
       /\ Forall (parser_event anno_path image item) evs
       /\ item_reports evs = [].
Proof.
  intros Hparse.
  apply parse_annotations_events in Hparse as (evs & -> & Hevs).
  split; [done|]. split; [done|]. exists evs.
  split; [done|]. split; [done|].
  by apply parser_events_no_item_report in Hevs.
Qed.

(** X2: the checks of a line come in a fixed order.  A line that has
    not 9 tokens is refused for its field count whatever the tokens
    are; with 9 tokens, a first token that is no integer is refused
    before any coordinate is looked at; and an integer that does not
    index the categories is refused as an undeclared label, named by
    its decimal form, whether or not the coordinates are numbers. *)
Theorem line_checks_come_in_order cats (H W : Z) (idx : nat) (line : string) :
  (length (split line) <> 9%nat ->
   parse_line w cats H W idx line
   = Raise (InvalidAnnotationError
              ("Unexpected field count " +:+ pretty (length (split line))
               +:+ " in the oriented bbox description. "
               +:+ "Expected 9 fields (label, x1, y1, x2, y2, x3, y3, x4, y4).")))
  /\ (forall l coords, split line = l :: coords -> length coords = 8%nat ->
        (py_int w l = None ->
         parse_line w cats H W idx line
         = Raise (InvalidAnnotationError
                    ("Can't parse oriented bbox label id from '" +:+ l
                     +:+ "'. Expected <class 'int'>")))
        /\ (forall label, py_int w l = Some label ->
              LabelCategories_contains cats label = false ->
              parse_line w cats H W idx line
              = Raise (UndeclaredLabelError (pretty label)))).
Proof.
  split.
  - intros Hlen. unfold parse_line.
    destruct (Nat.eqb (length (split line)) 9) eqn:Heq; [|done].
    by apply Nat.eqb_eq in Heq.
  - intros l coords Hsplit Hlen. unfold parse_line. rewrite Hsplit.
    destruct coords as [|t1 [|t2 [|t3 [|t4 [|t5 [|t6 [|t7 [|t8 [|t9 rest]]]]]]]]];
      try discriminate Hlen.
    simpl. unfold _parse_field. split.
    + by intros ->.
    + intros label -> Hin. simpl. by rewrite Hin.
Qed.

(** X3: every box that the parser returns has a label that indexes the
    categories of the extractor. *)
Theorem parsed_boxes_have_declared_labels
    s anno_path image item s' (boxes : list (Bbox F)) :
  _parse_annotations w s anno_path image item = (s', Return boxes) ->
  forall b, b ∈ boxes ->
    0 <= bbox_label b < Z.of_nat (length (_categories (ext s)))
    /\ is_Some (_categories (ext s) !! Z.to_nat (bbox_label b)).
Proof.
  intros Hparse b Hb.
  assert (Hrange : 0 <= bbox_label b < Z.of_nat (length (_categories (ext s)))).
  { destruct (parse_annotations_cases s anno_path image item)
      as [[_ Heq]|[(f & _ & _ & Heq)|[(f & msg & _ & _ & _ & Heq)
         |(f & H & W & _ & _ & _ & Heq)]]];
      rewrite Heq in Hparse; try done.
    - injection Hparse as _ <-. by apply elem_of_nil in Hb.
    - injection Hparse as _ <-.
      apply successes_origin in Hb as (i & line & _ & Hb).
      apply parse_line_accepted in Hb.
      destruct Hb as (l & t1 & t2 & t3 & t4 & t5 & t6 & t7 & t8 & label
                      & x1 & y1 & x2 & y2 & x3 & y3 & x4 & y4
                      & _ & _ & Hin & _ & ->).
      simpl. unfold LabelCategories_contains in Hin.
      apply andb_true_iff in Hin as [Hlo Hhi]. lia. }
  split; [done|]. apply lookup_lt_is_Some. lia.
Qed.

Lemma successes_failures_length {A : Type} (rs : list (Res A)) :
  (length (successes rs) + length (failures rs))%nat = length rs.
Proof.
  unfold successes, failures.
  induction rs as [|[a|e] rs IH]; csimpl in *; lia.
Qed.

(** The ordinals of the boxes of the lines from position [k] on. *)
Lemma successes_ordinals cats (H W : Z) (lines : list string) :
  forall k : nat,
    let ids := bbox_id <$> successes
                 (imap (fun i line => parse_line w cats H W (k + i) line) lines) in
    StronglySorted lt ids /\ Forall (le k) ids.
Proof.
  induction lines as [|line rest IH]; intros k; simpl.
  - split; constructor.
  - rewrite Nat.add_0_r.
    assert (Hshift :
      imap ((fun i l => parse_line w cats H W (k + i) l) ∘ S) rest
      = imap (fun i l => parse_line w cats H W (S k + i) l) rest).
    { apply imap_ext. intros i l _. simpl. f_equal. lia. }
    rewrite Hshift. destruct (IH (S k)) as [Hsorted Hge].
    assert (Hge' : Forall (le k)
      (bbox_id <$> successes
         (imap (fun i l => parse_line w cats H W (S k + i) l) rest))).
    { eapply Forall_impl; [exact Hge|]. simpl. lia. }
    unfold successes in *. simpl.
    destruct (parse_line w cats H W k line) as [b|e] eqn:Hline; simpl; [|done].
    apply parse_line_ordinal in Hline as [-> _].
    split; constructor; try done.
Qed.

Lemma annotation_reports_fmap item (es : list Exn) :
  annotation_reports ((fun e => AnnotationError e item) <$> es)
  = (fun e => (e, item)) <$> es.
Proof.
  unfold annotation_reports.
  induction es as [|e es IH]; csimpl in *; [done|]. by rewrite IH.
Qed.

(** X4: the parser accounts for every line it collects.  When it
    returns, each collected line has given either a box or one
    annotation error, so the boxes and the annotation errors of the
    call add up to the collected lines; and the boxes stand in the order
    of their lines, their ordinals strictly increasing. *)
Theorem every_line_is_a_box_or_a_report
    s anno_path image item f s' (boxes : list (Bbox F)) :
  read_lines w anno_path = Some f ->
  _parse_annotations w s anno_path image item = (s', Return boxes) ->
  StronglySorted lt (bbox_id <$> boxes)
  /\ exists evs, trace s' = trace s ++ evs
       /\ (length boxes + length (annotation_reports evs))%nat
          = length (collect_lines f).
Proof.
  intros Hf Hparse.
  destruct (parse_annotations_cases s anno_path image item)
    as [[_ Heq]|[(f' & Hf' & Hnil & Heq)|[(f' & msg & _ & _ & _ & Heq)
       |(f' & H & W & Hf' & _ & _ & Heq)]]];
    rewrite Heq in Hparse; try done.
  - injection Hparse as <- <-. assert (f' = f) as -> by congruence.
    split; [constructor|]. eexists. split; [reflexivity|]. by rewrite Hnil.
  - injection Hparse as <- <-. assert (f' = f) as -> by congruence.
    split.
    + apply (successes_ordinals (_categories (ext s)) H W (collect_lines f) 0).
    + eexists. split; [reflexivity|].
      unfold annotation_reports at 1. simpl.
      fold (annotation_reports
              ((fun e => AnnotationError e item)
                 <$> failures (imap (parse_line w (_categories (ext s)) H W)
                                    (collect_lines f)))).
      rewrite annotation_reports_fmap, length_fmap, successes_failures_length.
      apply length_imap.
Qed.

Lemma collect_lines_app (f1 f2 : list string) :
  collect_lines (f1 ++ f2) = collect_lines f1 ++ collect_lines f2.
Proof.
  induction f1 as [|line rest IH]; simpl; [done|].
  destruct (is_empty (strip line)); by rewrite IH.
Qed.

(** X5: blank lines do not count.  Two files that differ by one line
    that strips to nothing, wherever it stands, give the same result,
    boxes and ordinals alike, and the same events after the opening of
    the file. *)
Theorem blank_lines_do_not_count
    s image item (path1 path2 : string) (f1 f2 : list string) (blank : string) :
  strip blank = EmptyString ->
  read_lines w path1 = Some (f1 ++ blank :: f2) ->
  read_lines w path2 = Some (f1 ++ f2) ->
  exists evs r,
    _parse_annotations w s path1 image item
    = (extend_trace (OpenFile path1 :: evs) s, r)
    /\ _parse_annotations w s path2 image item
       = (extend_trace (OpenFile path2 :: evs) s, r).
Proof.
  intros Hblank Hf1 Hf2.
  assert (Hsame : collect_lines (f1 ++ blank :: f2) = collect_lines (f1 ++ f2)).
  { rewrite !collect_lines_app. simpl. by rewrite Hblank. }
  destruct (decide (collect_lines (f1 ++ f2) = [])) as [Hnil|Hne].
  { exists [], (Return []). split.
    - apply (parse_annotations_blank _ _ _ _ _ (f1 ++ blank :: f2)); congruence.
    - by apply (parse_annotations_blank _ _ _ _ _ (f1 ++ f2)). }
  destruct (Image_size w image) as [[H W]|] eqn:Hsz.
  - eexists _, _. split.
    + rewrite (parse_annotations_lines _ _ _ _ _ (f1 ++ blank :: f2) H W);
        [|done|congruence|done].
      rewrite Hsame. reflexivity.
    + by rewrite (parse_annotations_lines _ _ _ _ _ (f1 ++ f2) H W).
  - eexists _, _. split.
    + rewrite (parse_annotations_no_size _ _ _ _ _ (f1 ++ blank :: f2));
        [|done|congruence|done]. reflexivity.
    + by rewrite (parse_annotations_no_size _ _ _ _ _ (f1 ++ f2)).
Qed.

End ParserProperties.

Section CacheProperties.

Context {F : Type} (w : World F).

Implicit Types (s : State F) (od : ODict F) (image : Image).

Lemma resolve_events s item_id subset_name filename s1 r :
  resolve w s item_id subset_name filename = (s1, r) ->
  exists evs, s1 = extend_trace evs s
    /\ Forall (parser_event (entry_anno_path w s item_id filename)
                 (entry_image w s item_id filename) (item_id, subset_name)) evs.
Proof.
  unfold resolve.
  destruct (_parse_annotations _ _ _ _ _) as [s2 parsed] eqn:Hparse.
  intros [= <- _]. by apply parse_annotations_events in Hparse.
Qed.

(** What [_get] does for a key that is present. *)
Lemma get_present s item_id subset_name od (entry : Entry F) :
  _subsets s !! subset_name = Some od ->
  od_get item_id od = Some entry ->
  match entry with
  | Resolved item => _get w s item_id subset_name = (s, Return (Some item))
  | Placeholder filename =>
      exists evs,
        Forall (parser_event (entry_anno_path w s item_id filename)
                  (entry_image w s item_id filename) (item_id, subset_name)) evs
        /\ ((exists item,
               resolve w s item_id subset_name filename
               = (extend_trace evs s, Return item)
               /\ _get w s item_id subset_name
                  = (set_subset subset_name (od_set item_id (Resolved item) od)
                       (extend_trace evs s),
                     Return (Some item)))
            \/ (exists e od',
                  resolve w s item_id subset_name filename
                  = (extend_trace evs s, Raise e)
                  /\ is_annotation_error e = false
                  /\ od_pop item_id od = Some od'
                  /\ _get w s item_id subset_name
                     = (set_subset subset_name od'
                          (extend_trace (evs ++ [ItemError e (item_id, subset_name)]) s),
                        Return None)))
  end.
Proof.
  intros Hsub Hget. unfold _get. rewrite Hsub, Hget.
  destruct entry as [filename|item]; [|done].
  destruct (resolve w s item_id subset_name filename) as [s1 [item|e]] eqn:Hres.
  - destruct (resolve_events _ _ _ _ _ _ Hres) as (evs & -> & Hevs).
    exists evs. split; [done|]. left. by exists item.
  - destruct (resolve_events _ _ _ _ _ _ Hres) as (evs & -> & Hevs).
    pose proof (resolve_raises w _ _ _ _ _ _ Hres) as Hkind. rewrite Hkind.
    destruct (od_pop_present _ _ _ Hget) as (od' & Hpop & _ & _). rewrite Hpop.
    exists evs. split; [done|]. right. exists e, od'.
    repeat split; try done.
    unfold report_item_error. by rewrite log_extend_trace, extend_trace_app.
Qed.

(** X6: a placeholder is resolved in one case only.  [_get] returns an
    item for it exactly when the parser returns two boxes and the
    constructor of [DatasetItem] accepts the first of them as its
    annotations; the item then holds what the constructor made of that
    first box, and the second box is not part of it. *)
Theorem placeholder_resolves_only_with_two_boxes
    s item_id subset_name od filename (item : DatasetItem F) :
  _subsets s !! subset_name = Some od ->
  od_get item_id od = Some (Placeholder filename) ->
  (_get w s item_id subset_name).2 = Return (Some item)
  <-> exists (b1 b2 : Bbox F) (stored : list (Bbox F)),
        (_parse_annotations w s (entry_anno_path w s item_id filename)
           (entry_image w s item_id filename) (item_id, subset_name)).2
        = Return [b1; b2]
        /\ DatasetItem_annotations w b1 = Some stored
        /\ item = {| item_id := item_id; item_subset := subset_name;
                     item_media := entry_image w s item_id filename;
                     item_annotations := stored |}.
Proof.
  intros Hsub Hget. unfold _get. rewrite Hsub, Hget. unfold resolve.
  destruct (_parse_annotations _ _ _ _ _) as [s1 [boxes|e]] eqn:Hparse; simpl.
  - destruct (od_pop_present _ _ _ Hget) as (od' & Hpop & _ & _).
    destruct boxes as [|b1 [|b2 [|b3 rest]]]; simpl; rewrite ?Hpop; simpl.
    + split; [done|]. by intros (? & ? & ? & ? & _).
    + split; [done|]. by intros (? & ? & ? & ? & _).
    + destruct (DatasetItem_annotations w b1) as [stored|] eqn:Hstored; simpl.
      * split.
        -- intros [= <-]. by exists b1, b2, stored.
        -- intros (b1' & b2' & stored' & [= <- <-] & Hs & ->). congruence.
      * split; [done|].
        intros (b1' & b2' & stored' & [= <- <-] & Hs & _). congruence.
    + split; [done|]. by intros (? & ? & ? & ? & _).
  - apply parse_annotations_raises in Hparse as Hkind. rewrite Hkind.
    destruct (od_pop_present _ _ _ Hget) as (od' & -> & _ & _). simpl.
    split; [done|]. by intros (? & ? & ? & ? & _).
Qed.

Lemma item_reports_app (evs1 evs2 : list Event) :
  item_reports (evs1 ++ evs2) = item_reports evs1 ++ item_reports evs2.
Proof. unfold item_reports. apply omap_app. Qed.

(** X7: what [_get] reports.  A call that returns an item reports no
    item error.  A call that returns nothing has appended exactly one
    item error, as its last event, for the id and the subset it was
    called with, and the exception in it is none of the two annotation
    errors. *)
Theorem eviction_reports_one_item_error s item_id subset_name s' r :
  _get w s item_id subset_name = (s', r) ->
  exists evs, trace s' = trace s ++ evs
    /\ ((exists item, r = Return (Some item)) -> item_reports evs = [])
    /\ (r = Return None ->
        exists evs' e, evs = evs' ++ [ItemError e (item_id, subset_name)]
          /\ item_reports evs' = []
          /\ is_annotation_error e = false).
Proof.
  unfold _get at 1.
  destruct (_subsets s !! subset_name) as [od|] eqn:Hsub.
  2:{ intros [= <- <-]. exists []. rewrite app_nil_r.
      split; [done|]. split; [done|]. done. }
  destruct (od_get item_id od) as [entry|] eqn:Hget.
  2:{ intros [= <- <-]. exists []. rewrite app_nil_r.
      split; [done|]. split; [done|]. done. }
  fold (_get w s item_id subset_name).
  pose proof (get_present s item_id subset_name od entry Hsub Hget) as Hcases.
  unfold _get in Hcases. rewrite Hsub, Hget in Hcases.
  destruct entry as [filename|item].
  - destruct Hcases as (evs & Hevs & [(item & _ & ->)|(e & od' & _ & Hkind & _ & ->)]).
    + intros [= <- <-]. exists evs. split; [done|]. split; [|done].
      intros _. by apply parser_events_no_item_report in Hevs.
    + intros [= <- <-]. eexists. split; [reflexivity|]. split.
      * by intros [item [=]].
      * intros _. exists evs, e. split; [done|]. split; [|done].
        by apply parser_events_no_item_report in Hevs.
  - intros [= <- <-]. exists []. rewrite app_nil_r.
    split; [done|]. split; [done|]. done.
Qed.

Lemma assoc_replace_value_other (key key' : string) (v : Entry F)
    (l l' : list (string * Entry F)) :
  replace_value key v l = Some l' ->
  key' <> key ->
  assoc key' l' = assoc key' l.
Proof.
  revert l'. induction l as [|[k v'] rest IH]; intros l'; simpl; [done|].
  destruct (String.eqb key k) eqn:Hk.
  - intros [= <-] Hne. simpl. apply String.eqb_eq in Hk as <-.
    destruct (String.eqb key' key) eqn:Hk'; [|done].
    by apply String.eqb_eq in Hk'.
  - destruct (replace_value key v rest) as [r|] eqn:Hr; [|done].
    simpl. intros [= <-] Hne. simpl. by rewrite (IH r).
Qed.

Lemma assoc_filter_other (key key' : string) (l : list (string * Entry F)) :
  key' <> key ->
  assoc key' (filter (fun kv => negb (String.eqb key kv.1)) l) = assoc key' l.
Proof.
  intros Hne. induction l as [|[k v] rest IH]; simpl; [done|].
  rewrite filter_cons. simpl.
  destruct (String.eqb key k) eqn:Hk; simpl.
  - apply String.eqb_eq in Hk as <-.
    destruct (String.eqb key' key) eqn:Hk'; [|done].
    by apply String.eqb_eq in Hk'.
  - by rewrite IH.
Qed.

Lemma od_get_set_other (key key' : string) (v e : Entry F) od :
  od_get key od = Some e -> key' <> key ->
  od_get key' (od_set key v od) = od_get key' od.
Proof.
  intros He Hne. unfold od_get, od_set in *.
  destruct (assoc_replace_value key v e _ He) as (l' & Hl' & _). rewrite Hl'. simpl.
  by apply (assoc_replace_value_other key key' v (od_items od)).
Qed.

Lemma od_get_pop_other (key key' : string) od od' :
  od_pop key od = Some od' -> key' <> key ->
  od_get key' od' = od_get key' od.
Proof.
  unfold od_pop. destruct (od_get key od); [|done].
  intros [= <-] Hne. unfold od_get. simpl. by apply assoc_filter_other.
Qed.

(** X8: [_get] touches one entry only.  Whatever the call does, the
    fields of the extractor stay, every other subset stays, every other
    entry of the subset stays, and the trace only grows. *)
Theorem get_touches_one_entry s item_id subset_name s' r :
  _get w s item_id subset_name = (s', r) ->
  ext s' = ext s
  /\ (exists evs, trace s' = trace s ++ evs)
  /\ (forall other, other <> subset_name ->
        _subsets s' !! other = _subsets s !! other)
  /\ (forall od other, _subsets s !! subset_name = Some od -> other <> item_id ->
        exists od', _subsets s' !! subset_name = Some od'
          /\ od_get other od' = od_get other od).
Proof.
  unfold _get at 1.
  destruct (_subsets s !! subset_name) as [od|] eqn:Hsub.
  2:{ intros [= <- <-]. split; [done|]. split; [by exists []; rewrite app_nil_r|].
      split; [done|]. by intros od other [=]. }
  destruct (od_get item_id od) as [entry|] eqn:Hget.
  2:{ intros [= <- <-]. split; [done|]. split; [by exists []; rewrite app_nil_r|].
      split; [done|]. intros od0 other [= <-] _. by exists od. }
  fold (_get w s item_id subset_name).
  pose proof (get_present s item_id subset_name od entry Hsub Hget) as Hcases.
  unfold _get in Hcases. rewrite Hsub, Hget in Hcases.
  destruct entry as [filename|item].
  - destruct Hcases as (evs & _ & [(item & _ & ->)|(e & od' & _ & _ & Hpop & ->)]);
      intros [= <- <-]; (split; [done|]); (split; [by eexists|]); split.
    + intros other Hne. simpl. by rewrite lookup_insert_ne.
    + intros od0 other [= <-] Hne. eexists. simpl.
      split; [apply lookup_insert_eq|]. by apply (od_get_set_other _ _ _ _ _ Hget).
    + intros other Hne. simpl. by rewrite lookup_insert_ne.
    + intros od0 other [= <-] Hne. exists od'. simpl.
      split; [apply lookup_insert_eq|]. by apply (od_get_pop_other item_id).
  - intros [= <- <-]. split; [done|]. split; [by exists []; rewrite app_nil_r|].
    split; [done|]. intros od0 other [= <-] _. by exists od.
Qed.

End CacheProperties.

Section IterationProperties.

Context {F : Type} (w : World F).

Implicit Types (s : State F) (od : ODict F).

(** *** Association lists with distinct keys *)

Lemma assoc_app_notin (key : string) (pre l : list (string * Entry F)) :
  key ∉ pre.*1 -> assoc key (pre ++ l) = assoc key l.
Proof.
  induction pre as [|[k v] pre IH]; simpl; [done|].
  intros Hnotin. apply not_elem_of_cons in Hnotin as [Hne Hnotin].
  destruct (String.eqb key k) eqn:Hk; [by apply String.eqb_eq in Hk|].
  by apply IH.
Qed.

Lemma replace_value_app_notin (key : string) (v : Entry F)
    (pre l : list (string * Entry F)) :
  key ∉ pre.*1 ->
  replace_value key v (pre ++ l)
  = ((fun r => pre ++ r) <$> replace_value key v l).
Proof.
  induction pre as [|[k v'] pre IH]; simpl.
  - intros _. by destruct (replace_value key v l).
  - intros Hnotin. apply not_elem_of_cons in Hnotin as [Hne Hnotin].
    destruct (String.eqb key k) eqn:Hk; [by apply String.eqb_eq in Hk|].
    rewrite IH by done. by destruct (replace_value key v l).
Qed.

Lemma filter_out_notin (key : string) (l : list (string * Entry F)) :
  key ∉ l.*1 -> filter (fun kv => negb (String.eqb key kv.1)) l = l.
Proof.
  induction l as [|[k v] l IH]; simpl; [done|].
  intros Hnotin. apply not_elem_of_cons in Hnotin as [Hne Hnotin].
  rewrite filter_cons. simpl.
  destruct (String.eqb key k) eqn:Hk; [by apply String.eqb_eq in Hk|].
  simpl. by rewrite IH.
Qed.

Lemma filter_keys_notin (key : string) (keys : list string) :
  key ∉ keys -> filter (fun k => k <> key) keys = keys.
Proof.
  induction keys as [|k keys IH]; [done|].
  intros Hnotin. apply not_elem_of_cons in Hnotin as [Hne Hnotin].
  rewrite filter_cons. rewrite decide_True by done. by rewrite IH.
Qed.

Lemma nodup_split_keys (key : string) (e : Entry F) (pre post : list (string * Entry F)) :
  NoDup (pre ++ (key, e) :: post).*1 -> (key ∉ pre.*1) /\ (key ∉ post.*1).
Proof.
  rewrite fmap_app, fmap_cons. simpl. intros Hnd.
  apply NoDup_app in Hnd as (_ & Hdisj & Hpost).
  apply NoDup_cons in Hpost as [Hnotin _].
  split; [|done]. intros Hin. apply (Hdisj key Hin). by left.
Qed.

Lemma od_get_at od (key : string) (e : Entry F) (pre post : list (string * Entry F)) :
  od_items od = pre ++ (key, e) :: post ->
  NoDup (od_keys od) ->
  od_get key od = Some e.
Proof.
  unfold od_get, od_keys. intros -> Hnd.
  destruct (nodup_split_keys _ _ _ _ Hnd) as [Hpre _].
  rewrite assoc_app_notin by done. simpl. by rewrite String.eqb_refl.
Qed.

Lemma od_set_at od (key : string) (e v : Entry F) (pre post : list (string * Entry F)) :
  od_items od = pre ++ (key, e) :: post ->
  NoDup (od_keys od) ->
  od_items (od_set key v od) = pre ++ (key, v) :: post
  /\ od_state (od_set key v od) = od_state od.
Proof.
  unfold od_set, od_keys. intros Hitems Hnd. rewrite Hitems in *.
  destruct (nodup_split_keys _ _ _ _ Hnd) as [Hpre _].
  rewrite replace_value_app_notin by done. simpl. by rewrite String.eqb_refl.
Qed.

Lemma od_pop_at od od' (key : string) (e : Entry F) (pre post : list (string * Entry F)) :
  od_items od = pre ++ (key, e) :: post ->
  NoDup (od_keys od) ->
  od_pop key od = Some od' ->
  od_items od' = pre ++ post /\ od_state od' = S (od_state od).
Proof.
  intros Hitems Hnd. unfold od_pop.
  destruct (od_get key od); [|done]. intros [= <-]. simpl. split; [|done].
  unfold od_keys in Hnd. rewrite Hitems in *.
  destruct (nodup_split_keys _ _ _ _ Hnd) as [Hpre Hpost].
  rewrite filter_app, filter_cons. simpl. rewrite String.eqb_refl. simpl.
  by rewrite !filter_out_notin.
Qed.

Lemma replace_value_keys (key : string) (v : Entry F) (l l' : list (string * Entry F)) :
  replace_value key v l = Some l' -> l'.*1 = l.*1.
Proof.
  revert l'. induction l as [|[k v'] rest IH]; intros l'; simpl; [done|].
  destruct (String.eqb key k).
  - by intros [= <-].
  - destruct (replace_value key v rest) as [r|]; [|done].
    simpl. intros [= <-]. csimpl. f_equal. by apply IH.
Qed.

Lemma od_set_keys od (key : string) (v e : Entry F) :
  od_get key od = Some e -> od_keys (od_set key v od) = od_keys od.
Proof.
  unfold od_get, od_set, od_keys. intros He.
  destruct (assoc_replace_value key v e _ He) as (l' & Hl' & _). rewrite Hl'. simpl.
  by apply (replace_value_keys key v).
Qed.

Lemma assoc_elem_of (key : string) (e : Entry F) (l : list (string * Entry F)) :
  assoc key l = Some e -> (key, e) ∈ l.
Proof.
  induction l as [|[k v] rest IH]; simpl; [done|].
  destruct (String.eqb key k) eqn:Hk.
  - apply String.eqb_eq in Hk as <-. intros [= <-]. by left.
  - intros He. right. by apply IH.
Qed.

Lemma od_get_split od (key : string) (e : Entry F) :
  od_get key od = Some e ->
  exists pre post, od_items od = pre ++ (key, e) :: post.
Proof.
  intros He. apply assoc_elem_of in He.
  apply list_elem_of_split in He as (pre & post & ->). by exists pre, post.
Qed.

Lemma Extractor_len_insert (m : gmap string (ODict F)) (name : string) od od' :
  m !! name = Some od ->
  (map_fold (fun _ o n => (length (od_items o) + n)%nat) 0%nat (<[name := od']> m)
   + length (od_items od))%nat
  = (map_fold (fun _ o n => (length (od_items o) + n)%nat) 0%nat m
     + length (od_items od'))%nat.
Proof.
  intros Hm.
  rewrite (map_fold_delete_L _ _ name od m); [|intros; lia|done].
  rewrite <- (insert_delete_eq m).
  rewrite map_fold_insert_L; [lia|intros; lia|apply lookup_delete_eq].
Qed.

(** X9: how [_get] changes the length of a subset whose keys are
    distinct.  A call that returns an item keeps the keys and their
    order, so [len] of the subset and of the extractor stay.  A call
    that returns nothing removes the one key it was called with, and
    both lengths go down by one.  A call that raises changes
    nothing. *)
Theorem get_shortens_by_eviction_only s item_id subset_name od s' r :
  _subsets s !! subset_name = Some od ->
  NoDup (od_keys od) ->
  _get w s item_id subset_name = (s', r) ->
  ((exists item, r = Return (Some item)) ->
     (od_keys <$> _subsets s' !! subset_name) = Some (od_keys od)
     /\ Subset_len s' subset_name = Subset_len s subset_name
     /\ Extractor_len s' = Extractor_len s)
  /\ (r = Return None ->
      (od_keys <$> _subsets s' !! subset_name)
      = Some (filter (fun k => k <> item_id) (od_keys od))
      /\ S <$> Subset_len s' subset_name = Subset_len s subset_name
      /\ S (Extractor_len s') = Extractor_len s)
  /\ (forall e, r = Raise e -> s' = s).
Proof.
  intros Hsub Hnd. unfold _get at 1. rewrite Hsub.
  destruct (od_get item_id od) as [entry|] eqn:Hget.
  2:{ intros [= <- <-]. split; [by intros [? [=]]|]. split; [done|]. done. }
  fold (_get w s item_id subset_name).
  pose proof (get_present w s item_id subset_name od entry Hsub Hget) as Hcases.
  unfold _get in Hcases. rewrite Hsub, Hget in Hcases.
  destruct (od_get_split _ _ _ Hget) as (pre & post & Hitems).
  destruct entry as [filename|item].
  - destruct Hcases as (evs & _ & [(item & _ & ->)|(e & od' & _ & _ & Hpop & ->)]);
      intros [= <- <-].
    + split; [|split; [done|done]]. intros _.
      unfold Subset_len, Extractor_len. simpl. rewrite lookup_insert_eq, Hsub. simpl.
      split; [by rewrite (od_set_keys _ _ _ _ Hget)|].
      destruct (od_set_at od item_id _ (Resolved item) pre post Hitems Hnd) as [Hset _].
      assert (Hlen : length (od_items (od_set item_id (Resolved item) od))
                     = length (od_items od)).
      { rewrite Hset, Hitems. by rewrite !length_app. }
      split; [by rewrite Hlen|].
      pose proof (Extractor_len_insert (_subsets s) subset_name od
                    (od_set item_id (Resolved item) od) Hsub). lia.
    + split; [by intros [? [=]]|]. split; [|done]. intros _.
      unfold Subset_len, Extractor_len. simpl. rewrite lookup_insert_eq, Hsub. simpl.
      destruct (od_pop_at od od' item_id _ pre post Hitems Hnd Hpop) as [Hpopped _].
      assert (Hlen : S (length (od_items od')) = length (od_items od)).
      { rewrite Hpopped, Hitems. rewrite !length_app. simpl. lia. }
      split; [|split; [by rewrite Hlen|]].
      * f_equal. unfold od_keys in *. rewrite Hpopped, Hitems in *.
        destruct (nodup_split_keys _ _ _ _ Hnd) as [Hpre Hpost].
        rewrite !fmap_app, fmap_cons, filter_app, filter_cons. simpl.
        rewrite decide_False by (by intros Hne; apply Hne).
        by rewrite !filter_keys_notin.
      * pose proof (Extractor_len_insert (_subsets s) subset_name od od' Hsub). lia.
  - intros [= <- <-]. split; [|split; [done|done]]. intros _.
    unfold Subset_len. by rewrite Hsub.
Qed.

(** *** The loop over the keys *)

(** The items that the keys [keys] have in the cache of [od]. *)
Lemma iter_from_cached (name : string) s od (keys : list string) :
  _subsets s !! name = Some od ->
  forall pre : list (string * Entry F),
    Forall is_resolved pre ->
    Forall (fun kv => od_get kv.1 od = Some kv.2) pre ->
    iter_from w name (od_state od) (pre.*1 ++ keys) s
    = (let '(s', items, out) := iter_from w name (od_state od) keys s in
       (s', resolved_items pre ++ items, out)).
Proof.
  intros Hsub pre. induction pre as [|[k e] pre IH]; intros Hres Hget.
  - simpl. by destruct (iter_from w name (od_state od) keys s) as [[s' items] out].
  - apply Forall_cons in Hres as [[item Hitem] Hres].
    apply Forall_cons in Hget as [Hk Hget]. simpl in Hitem, Hk. subst e.
    csimpl. rewrite Hsub, Nat.eqb_refl. csimpl.
    pose proof (get_present w s k name od _ Hsub Hk) as Hcached. simpl in Hcached.
    rewrite Hcached. rewrite (IH Hres Hget).
    by destruct (iter_from w name (od_state od) keys s) as [[s' items] out].
Qed.

Lemma entries_get od :
  NoDup (od_keys od) ->
  Forall (fun kv => od_get kv.1 od = Some kv.2) (od_items od).
Proof.
  intros Hnd. apply Forall_forall. intros [k e] Hin. simpl.
  apply list_elem_of_split in Hin as (pre & post & Hitems).
  by apply (od_get_at od k e pre post).
Qed.

Lemma iter_resolved (name : string) s od :
  _subsets s !! name = Some od ->
  NoDup (od_keys od) ->
  Forall is_resolved (od_items od) ->
  Subset_iter w s name = (s, resolved_items (od_items od), None).
Proof.
  intros Hsub Hnd Hres. unfold Subset_iter. rewrite Hsub. unfold od_keys.
  rewrite <- (app_nil_r (od_items od).*1).
  rewrite (iter_from_cached name s od [] Hsub (od_items od) Hres (entries_get od Hnd)).
  simpl. by rewrite app_nil_r.
Qed.

(** X10: a subset that is resolved throughout is read from the cache.
    When all entries of a subset with distinct keys are items, the
    iteration yields these items in the order of the entries, ends
    without an exception and leaves the state as it is: no file is
    opened and nothing is reported. *)
Theorem resolved_subset_iterates_from_cache (name : string) s od :
  _subsets s !! name = Some od ->
  NoDup (od_keys od) ->
  Forall is_resolved (od_items od) ->
  Subset_iter w s name = (s, resolved_items (od_items od), None).
Proof. apply iter_resolved. Qed.

End IterationProperties.

Section IterationOutcomes.

Context {F : Type} (w : World F).

Implicit Types (s : State F) (od : ODict F).

Lemma od_get_set_is_Some od (key key' : string) (v e : Entry F) :
  od_get key od = Some e ->
  is_Some (od_get key' od) ->
  is_Some (od_get key' (od_set key v od)).
Proof.
  intros He Hsome. destruct (decide (key' = key)) as [->|Hne].
  - destruct (od_get_set key v e od He) as [-> _]. by eexists.
  - by rewrite (od_get_set_other key key' v e od He Hne).
Qed.

(** As long as the dictionary is not modified, the keys still to come
    are keys of it; once it is, the loop ends at its next step. *)
Lemma iter_from_outcome (name : string) (di_state : nat) (keys : list string) :
  forall s od,
    _subsets s !! name = Some od ->
    (od_state od = di_state -> Forall (fun k => is_Some (od_get k od)) keys) ->
    exists s' items out,
      iter_from w name di_state keys s = (s', items, out)
      /\ (out = None \/ out = Some mutated).
Proof.
  induction keys as [|k rest IH]; intros s od Hsub Hkeys; simpl.
  - eexists _, _, _. split; [done|]. by left.
  - rewrite Hsub.
    destruct (Nat.eqb (od_state od) di_state) eqn:Hstate; simpl.
    2:{ eexists _, _, _. split; [done|]. by right. }
    apply Nat.eqb_eq in Hstate. specialize (Hkeys Hstate).
    apply Forall_cons in Hkeys as [[entry Hget] Hrest].
    pose proof (get_present w s k name od entry Hsub Hget) as Hcases.
    destruct entry as [filename|item].
    + destruct Hcases as (evs & _ & [(item & _ & ->)|(e & od' & _ & _ & Hpop & ->)]).
      * destruct (IH (set_subset name (od_set k (Resolved item) od) (extend_trace evs s))
                    (od_set k (Resolved item) od)) as (s' & items & out & -> & Hout).
        { simpl. apply lookup_insert_eq. }
        { intros _. eapply Forall_impl; [exact Hrest|].
          intros k'. by apply od_get_set_is_Some with (e := Placeholder filename). }
        by eexists _, _, _.
      * destruct (IH (set_subset name od'
                        (extend_trace (evs ++ [ItemError e (k, name)]) s)) od')
          as (s' & items & out & -> & Hout).
        { simpl. apply lookup_insert_eq. }
        { destruct (od_pop_present _ _ _ Hget) as (od'' & Hpop' & _ & Hcount).
          assert (od'' = od') as -> by congruence. intros Heq. lia. }
        by eexists _, _, _.
    + rewrite Hcases.
      destruct (IH s od Hsub (fun _ => Hrest)) as (s' & items & out & -> & Hout).
      by eexists _, _, _.
Qed.

Lemma keys_present od :
  Forall (fun k => is_Some (od_get k od)) (od_keys od).
Proof.
  unfold od_keys, od_get. induction (od_items od) as [|[k e] rest IH]; csimpl.
  - constructor.
  - constructor.
    + simpl. rewrite String.eqb_refl. by eexists.
    + eapply Forall_impl; [exact IH|]. intros k' Hk'. simpl.
      destruct (String.eqb k' k); [by eexists|done].
Qed.

(** X11: the only exception that leaves the iteration of a subset is
    the [RuntimeError] of the dictionary that was modified during the
    loop.  Neither a failure of an entry nor a missing key ends the
    generator in any other way. *)
Theorem iteration_ends_normally_or_mutated (name : string) s od :
  _subsets s !! name = Some od ->
  exists s' items out,
    Subset_iter w s name = (s', items, out)
    /\ (out = None \/ out = Some mutated).
Proof.
  intros Hsub. unfold Subset_iter. rewrite Hsub.
  apply (iter_from_outcome name (od_state od) (od_keys od) s od Hsub).
  intros _. apply keys_present.
Qed.

Lemma resolved_items_app (l1 l2 : list (string * Entry F)) :
  resolved_items (l1 ++ l2) = resolved_items l1 ++ resolved_items l2.
Proof. unfold resolved_items. apply omap_app. Qed.

(** A loop that ends without an exception leaves every entry it went
    through as an item, or has evicted the last of them. *)
Lemma iter_from_complete (name : string) (cur : list (string * Entry F)) :
  forall (pre : list (string * Entry F)) s od s' items,
    _subsets s !! name = Some od ->
    od_items od = pre ++ cur ->
    NoDup (od_keys od) ->
    iter_from w name (od_state od) cur.*1 s = (s', items, None) ->
    exists od' post,
      _subsets s' !! name = Some od'
      /\ od_items od' = pre ++ post
      /\ NoDup (od_keys od')
      /\ Forall is_resolved post
      /\ resolved_items post = items.
Proof.
  induction cur as [|[k e] rest IH]; intros pre s od s' items Hsub Hitems Hnd; csimpl.
  - intros [= <- <-]. exists od, []. by repeat split.
  - rewrite Hsub, Nat.eqb_refl. csimpl.
    pose proof (od_get_at od k e pre rest Hitems Hnd) as Hget.
    pose proof (get_present w s k name od e Hsub Hget) as Hcases.
    destruct e as [filename|item].
    + destruct Hcases as (evs & _ & [(item & _ & ->)|(e & od' & _ & _ & Hpop & ->)]).
      * destruct (od_set_at od k _ (Resolved item) pre rest Hitems Hnd) as [Hset Hcount].
        rewrite <- Hcount.
        destruct (iter_from w name _ rest.*1 _) as [[s1 items1] out1] eqn:Hrest.
        intros [= <- <- ->].
        edestruct (IH (pre ++ [(k, Resolved item)])
                      (set_subset name (od_set k (Resolved item) od) (extend_trace evs s))
                      (od_set k (Resolved item) od))
          as (od1 & post & Hsub1 & Hitems1 & Hnd1 & Hres1 & Hyield);
          [simpl; apply lookup_insert_eq
          |by rewrite Hset, <- app_assoc
          |by rewrite (od_set_keys _ _ _ _ Hget)
          |exact Hrest|].
        exists od1, ((k, Resolved item) :: post).
        split; [done|]. split; [by rewrite Hitems1, <- app_assoc|].
        split; [done|]. split; [constructor; [by eexists|done]|].
        unfold resolved_items in *. csimpl. by rewrite Hyield.
      * destruct (od_pop_at od od' k _ pre rest Hitems Hnd Hpop) as [Hpopped Hcount].
        destruct rest as [|[k' e'] rest]; csimpl.
        -- intros [= <- <-]. exists od', [].
           split; [simpl; apply lookup_insert_eq|].
           split; [done|]. split; [|by split].
           unfold od_keys in *. rewrite Hpopped, Hitems in *.
           rewrite fmap_app in *. apply NoDup_app in Hnd as (Hpre & _ & _).
           by rewrite fmap_nil, app_nil_r.
        -- rewrite lookup_insert_eq, Hcount.
           destruct (Nat.eqb (S (od_state od)) (od_state od)) eqn:Heq; [|done].
           apply Nat.eqb_eq in Heq. lia.
    + rewrite Hcases.
      destruct (iter_from w name _ rest.*1 _) as [[s1 items1] out1] eqn:Hrest.
      intros [= <- <- ->].
      edestruct (IH (pre ++ [(k, Resolved item)]) s od)
        as (od1 & post & Hsub1 & Hitems1 & Hnd1 & Hres1 & Hyield);
        [exact Hsub|by rewrite Hitems, <- app_assoc|exact Hnd|exact Hrest|].
      exists od1, ((k, Resolved item) :: post).
      split; [done|]. split; [by rewrite Hitems1, <- app_assoc|].
      split; [done|]. split; [constructor; [by eexists|done]|].
      unfold resolved_items in *. csimpl. by rewrite Hyield.
Qed.

(** X12: an iteration that came to its end is memoized.  When the
    iteration of a subset with distinct keys ends without an exception,
    iterating again yields the same items in the same order and leaves
    the state as the first iteration left it: nothing is parsed or
    reported a second time. *)
Theorem completed_iteration_is_memoized (name : string) s od s' items :
  _subsets s !! name = Some od ->
  NoDup (od_keys od) ->
  Subset_iter w s name = (s', items, None) ->
  Subset_iter w s' name = (s', items, None).
Proof.
  intros Hsub Hnd. unfold Subset_iter at 1. rewrite Hsub. intros Hiter.
  destruct (iter_from_complete name (od_items od) [] s od s' items Hsub eq_refl Hnd Hiter)
    as (od' & post & Hsub' & Hitems' & Hnd' & Hres & <-).
  simpl in Hitems'. rewrite <- Hitems' in *.
  by apply iter_resolved.
Qed.

(** X13: an eviction in the middle ends the iteration after the cached
    items before it.  When the entries before a placeholder are all
    items, the placeholder is evicted and another entry follows it, the
    iteration yields the items before the placeholder and then raises
    the [RuntimeError]; the entries after it are not visited. *)
Theorem eviction_in_the_middle_aborts
    (name : string) s od s' (pre rest : list (string * Entry F))
    (k : string) (filename : string) (next : string * Entry F) :
  _subsets s !! name = Some od ->
  od_items od = pre ++ (k, Placeholder filename) :: next :: rest ->
  NoDup (od_keys od) ->
  Forall is_resolved pre ->
  _get w s k name = (s', Return None) ->
  Subset_iter w s name = (s', resolved_items pre, Some mutated).
Proof.
  intros Hsub Hitems Hnd Hres Hget.
  destruct (get_None_modifies w _ _ _ _ _ Hsub Hget) as (od' & Hsub' & _ & Hstate).
  assert (Hpre : Forall (fun kv => od_get kv.1 od = Some kv.2) pre).
  { pose proof (entries_get od Hnd) as Hall. rewrite Hitems in Hall.
    by apply Forall_app in Hall as [Hall _]. }
  unfold Subset_iter. rewrite Hsub. unfold od_keys. rewrite Hitems, fmap_app.
  rewrite (iter_from_cached w name s od _ Hsub pre Hres Hpre).
  destruct next as [k' e']. csimpl.
  rewrite Hsub, Nat.eqb_refl. csimpl. rewrite Hget, Hsub', Hstate.
  destruct (Nat.eqb (S (od_state od)) (od_state od)) eqn:Heq.
  { apply Nat.eqb_eq in Heq. lia. }
  simpl. by rewrite app_nil_r.
Qed.

End IterationOutcomes.

Section ReaderProperties.

Context {F : Type} (w : World F).
Context {T : Type} `{Countable T} (ann_type : Bbox F -> T).

Implicit Types (s : State F) (types : gset T).

(** The result of the parser depends on the state through the
    categories only. *)
Lemma parse_result_ext s1 s2 anno_path image item :
  ext s1 = ext s2 ->
  (_parse_annotations w s1 anno_path image item).2
  = (_parse_annotations w s2 anno_path image item).2.
Proof.
  intros Hext.
  destruct (parse_annotations_cases w s1 anno_path image item)
    as [[Hf Heq]|[(f & Hf & Hl & Heq)|[(f & msg & Hf & Hl & Hsz & Heq)
       |(f & H' & W & Hf & Hl & Hsz & Heq)]]]; rewrite Heq; simpl.
  - by rewrite parse_annotations_unreadable.
  - by rewrite (parse_annotations_blank _ _ _ _ _ f).
  - rewrite (parse_annotations_no_size _ _ _ _ _ f) by done. simpl.
    rewrite (parse_annotations_no_size _ _ _ _ _ f) in Heq by done. congruence.
  - rewrite (parse_annotations_lines _ _ _ _ _ f H' W) by done. simpl.
    by rewrite Hext.
Qed.

(** The plain reader and the reader with its bookkeeping agree. *)
Lemma iter_urls_types_agrees (urls : list string) :
  forall s types,
    (iter_urls_types w ann_type urls s types).1 = iter_urls w urls s.
Proof.
  induction urls as [|url rest IH]; intros s types; simpl; [done|].
  destruct (_img_files (ext s) !! _get_fname w url) as [path|]; [|apply IH].
  destruct (_parse_annotations w s url _ _) as [s1 [anns|e]]; [|apply IH].
  specialize (IH s1 (foldl (fun t ann => t ∪ {[ ann_type ann ]}) types anns)).
  destruct (iter_urls_types w ann_type rest s1 _) as [[s2 items] types2].
  simpl in IH. by rewrite <- IH.
Qed.

Lemma iter_urls_types_ext (urls : list string) :
  forall s types, ext (iter_urls_types w ann_type urls s types).1.1 = ext s.
Proof.
  induction urls as [|url rest IH]; intros s types; simpl; [done|].
  destruct (_img_files (ext s) !! _get_fname w url) as [path|]; [|by rewrite IH].
  destruct (_parse_annotations w s url _ _) as [s1 [anns|e]] eqn:Hparse;
    apply parse_annotations_events in Hparse as (evs1 & -> & _).
  - specialize (IH (extend_trace evs1 s)
                   (foldl (fun t ann => t ∪ {[ ann_type ann ]}) types anns)).
    by destruct (iter_urls_types w ann_type rest _ _) as [[s2 items] types2].
  - by rewrite IH.
Qed.

(** X14: the reader of the url list accounts for every url.  It never
    raises; each url gives either one item or one item error, so the
    items and the item errors of the run add up to the urls; the items
    come in the order of their urls, named by the base name of the url;
    and the extractor and the subsets are as before. *)
Theorem url_reader_accounts_for_every_url (urls : list string) :
  forall s types s' items types',
    iter_urls_types w ann_type urls s types = (s', items, types') ->
    ext s' = ext s
    /\ _subsets s' = _subsets s
    /\ sublist (item_id <$> items) (_get_fname w <$> urls)
    /\ exists evs, trace s' = trace s ++ evs
         /\ (length items + length (item_reports evs))%nat = length urls.
Proof.
  induction urls as [|url rest IH]; intros s types s' items types'; simpl.
  - intros [= <- <- <-]. repeat split; [constructor|].
    exists []. by rewrite app_nil_r.
  - destruct (_img_files (ext s) !! _get_fname w url) as [path|].
    2:{ intros Hrest. apply IH in Hrest as (Hext & Hsub & Hids & evs & Htrace & Hlen).
        split; [done|]. split; [done|]. split; [by apply sublist_cons|].
        eexists (_ :: evs). simpl in Htrace. rewrite <- app_assoc in Htrace.
        split; [exact Htrace|]. unfold item_reports in *. csimpl. lia. }
    destruct (_parse_annotations w s url _ _) as [s1 [anns|e]] eqn:Hparse.
    + destruct (iter_urls_types w ann_type rest s1 _) as [[s2 items2] types2] eqn:Hrest.
      intros [= <- <- <-].
      apply IH in Hrest as (Hext & Hsub & Hids & evs & Htrace & Hlen).
      apply parse_annotations_events in Hparse as (evs1 & -> & Hevs1).
      split; [done|]. split; [done|]. split; [by apply sublist_skip|].
      exists (evs1 ++ evs). simpl in Htrace. rewrite <- app_assoc in Htrace.
      split; [exact Htrace|].
      rewrite item_reports_app, (parser_events_no_item_report _ _ _ _ Hevs1).
      simpl. lia.
    + intros Hrest. apply IH in Hrest as (Hext & Hsub & Hids & evs & Htrace & Hlen).
      apply parse_annotations_events in Hparse as (evs1 & -> & Hevs1).
      split; [done|]. split; [done|]. split; [by apply sublist_cons|].
      exists (evs1 ++ ItemError e (_get_fname w url, _subset (ext s)) :: evs).
      simpl in Htrace. rewrite <- !app_assoc in Htrace. simpl in Htrace.
      split; [exact Htrace|].
      rewrite item_reports_app, (parser_events_no_item_report _ _ _ _ Hevs1).
      unfold item_reports in *. csimpl. lia.
Qed.

(** X15: the reader of the url list keeps every surviving box.  Each
    item it yields belongs to one of the urls: its id is the base name
    of the url, its image is the file that [_img_files] holds for that
    name, with the size left to the decoder, and its annotations are
    the whole list that the parser returns for the url, however many
    boxes that is. *)
Theorem url_items_keep_every_box (urls : list string) :
  forall s types s' items types',
    iter_urls_types w ann_type urls s types = (s', items, types') ->
    forall item, item ∈ items ->
      exists url path,
        url ∈ urls
        /\ _img_files (ext s) !! _get_fname w url = Some path
        /\ item_id item = _get_fname w url
        /\ item_subset item = _subset (ext s)
        /\ item_media item = {| image_path := path; image_known_size := None |}
        /\ (_parse_annotations w s url (item_media item)
              (_get_fname w url, _subset (ext s))).2
           = Return (item_annotations item).
Proof.
  induction urls as [|url rest IH]; intros s types s' items types'; simpl.
  - intros [= <- <- <-] item Hin. by apply elem_of_nil in Hin.
  - assert (Hstep : forall s1 types1 s2 items2 types2,
      ext s1 = ext s ->
      iter_urls_types w ann_type rest s1 types1 = (s2, items2, types2) ->
      forall item, item ∈ items2 ->
        exists url' path,
          url' ∈ url :: rest
          /\ _img_files (ext s) !! _get_fname w url' = Some path
          /\ item_id item = _get_fname w url'
          /\ item_subset item = _subset (ext s)
          /\ item_media item = {| image_path := path; image_known_size := None |}
          /\ (_parse_annotations w s url' (item_media item)
                (_get_fname w url', _subset (ext s))).2
             = Return (item_annotations item)).
    { intros s1 types1 s2 items2 types2 Hext Hrest item Hin.
      destruct (IH s1 types1 s2 items2 types2 Hrest item Hin)
        as (url' & path & Hurl & Himg & Hid & Hsubset & Hmedia & Hanns).
      exists url', path. rewrite Hext in *.
      split; [by right|]. repeat split; try done.
      rewrite <- Hanns. by apply parse_result_ext. }
    destruct (_img_files (ext s) !! _get_fname w url) as [path|] eqn:Himg.
    2:{ intros Hrest item Hin. eapply Hstep; [|exact Hrest|exact Hin]. done. }
    destruct (_parse_annotations w s url _ _) as [s1 [anns|e]] eqn:Hparse.
    + destruct (iter_urls_types w ann_type rest s1 _) as [[s2 items2] types2] eqn:Hrest.
      intros [= <- <- <-] item Hin.
      pose proof (iter_urls_types_ext rest s1
                    (foldl (fun t ann => t ∪ {[ ann_type ann ]}) types anns)) as Hext2.
      rewrite Hrest in Hext2. simpl in Hext2.
      pose proof Hparse as Hs1.
      apply parse_annotations_events in Hs1 as (evs1 & Hs1 & _).
      assert (Hext1 : ext s1 = ext s) by (by rewrite Hs1).
      apply elem_of_cons in Hin as [->|Hin].
      * exists url, path. split; [by left|]. simpl.
        split; [done|]. split; [done|]. split; [congruence|]. split; [done|].
        by rewrite Hparse.
      * eapply Hstep; [|exact Hrest|exact Hin]. done.
    + intros Hrest item Hin.
      apply parse_annotations_events in Hparse as (evs1 & -> & _).
      eapply Hstep; [|exact Hrest|exact Hin]. done.
Qed.

Lemma foldl_add_types (anns : list (Bbox F)) :
  forall types t,
    t ∈ foldl (fun ts ann => ts ∪ {[ ann_type ann ]}) types anns
    <-> t ∈ types \/ exists b, b ∈ anns /\ ann_type b = t.
Proof.
  induction anns as [|a anns IH]; intros types t; simpl.
  - split; [by left|]. intros [Ht|(b & Hb & _)]; [done|by apply elem_of_nil in Hb].
  - rewrite IH, elem_of_union, elem_of_singleton. split.
    + intros [[Ht| ->]|(b & Hb & Hty)].
      * by left.
      * right. exists a. split; [by left|done].
      * right. exists b. split; [by right|done].
    + intros [Ht|(b & Hb & Hty)]; [by left; left|].
      apply elem_of_cons in Hb as [->|Hb].
      * left. by right.
      * right. by exists b.
Qed.

(** X16: [_ann_types] after a run of the reader of the url list holds
    what it held before and the types of the annotations of the items
    that were yielded, and nothing else: a file whose item is dropped
    adds no type. *)
Theorem ann_types_are_those_of_the_items (urls : list string) :
  forall s types s' items types',
    iter_urls_types w ann_type urls s types = (s', items, types') ->
    forall t, t ∈ types'
      <-> t ∈ types
          \/ exists item b, item ∈ items /\ b ∈ item_annotations item
               /\ ann_type b = t.
Proof.
  induction urls as [|url rest IH]; intros s types s' items types'; simpl.
  - intros [= <- <- <-] t. split; [by left|].
    intros [Ht|(item & b & Hin & _)]; [done|by apply elem_of_nil in Hin].
  - destruct (_img_files (ext s) !! _get_fname w url) as [path|]; [|apply IH].
    destruct (_parse_annotations w s url _ _) as [s1 [anns|e]]; [|apply IH].
    destruct (iter_urls_types w ann_type rest s1 _) as [[s2 items2] types2] eqn:Hrest.
    intros [= <- <- <-] t.
    rewrite (IH _ _ _ _ _ Hrest t), foldl_add_types. split.
    + intros [[Ht|(b & Hb & Hty)]|(item & b & Hin & Hb & Hty)].
      * by left.
      * right. eexists _, b. split; [by left|done].
      * right. exists item, b. split; [by right|done].
    + intros [Ht|(item & b & Hin & Hb & Hty)]; [by left; left|].
      apply elem_of_cons in Hin as [->|Hin].
      * left. right. by exists b.
      * right. by exists item, b.
Qed.

End ReaderProperties.

Section SetupProperties.

Context {F : Type} (w : World F).

Lemma load_img_files_from (rootpath subset name : string) (files : list string) :
  forall acc : gmap string string,
    foldl (fun files img_file =>
             if String.eqb (extract_subset_name_from_parent w img_file rootpath) subset
             then <[_get_fname w img_file := img_file]> files
             else files) acc files !! name
    = match last (List.filter
                    (fun img_file =>
                       String.eqb (extract_subset_name_from_parent w img_file rootpath)
                                  subset
                       && String.eqb (_get_fname w img_file) name) files) with
      | Some img_file => Some img_file
      | None => acc !! name
      end.
Proof.
  induction files as [|x files IH]; intros acc; simpl; [done|].
  rewrite IH.
  destruct (String.eqb (extract_subset_name_from_parent w x rootpath) subset); simpl.
  - destruct (String.eqb (_get_fname w x) name) eqn:Hname.
    + apply String.eqb_eq in Hname. subst name. rewrite last_cons.
      destruct (last (List.filter _ files)); [done|]. apply lookup_insert_eq.
    + destruct (last (List.filter _ files)); [done|].
      apply lookup_insert_ne. intros Heq. by rewrite Heq, String.eqb_refl in Hname.
  - done.
Qed.

(** X17: among the scanned image files of the subset that share a base
    name, the last one wins, and files of another subset are not kept:
    [_load_img_files] maps a name to the last file of the scan that
    belongs to the subset and has that base name, and has no entry for a
    name without such a file. *)
Theorem load_img_files_keeps_the_last (rootpath subset name : string) :
  _load_img_files w rootpath subset !! name
  = last (files_named w rootpath subset name).
Proof.
  unfold _load_img_files, files_named. rewrite load_img_files_from.
  by destruct (last _).
Qed.

(** X18: the constructor checks its arguments before it reads anything.
    A [config_path] that is no directory raises whatever the other
    arguments are; a missing or empty [urls] raises next; and an
    extractor that is returned has [config_path] as its root, the given
    urls, and the image info, image files and categories that the
    loaders return for that root. *)
Theorem init_checks_arguments_first
    (config_path : string) (image_info : image_info_arg)
    (urls : option (list string)) (subset : option string) :
  (osp_isdir w config_path = false ->
   __init__ w config_path image_info urls subset
   = Raise (DatasetImportError (config_path +:+ " should be a directory.")))
  /\ (osp_isdir w config_path = true -> urls = None \/ urls = Some [] ->
      __init__ w config_path image_info urls subset
      = Raise (DatasetImportError urls_missing_message))
  /\ (forall e, __init__ w config_path image_info urls subset = Return e ->
        osp_isdir w config_path = true
        /\ urls = Some (_urls e) /\ _urls e <> []
        /\ _path e = config_path
        /\ _subset e = SourceExtractor_subset w subset
        /\ parse_image_info w config_path image_info = Return (_image_info e)
        /\ _img_files e = _load_img_files w config_path (_subset e)
        /\ _load_categories w (osp_join w config_path (META_FILE w))
           = Return (_categories e)).
Proof.
  unfold __init__, _get_rootpath. split; [by intros ->|]. split.
  - intros -> [->| ->]; done.
  - intros e. destruct (osp_isdir w config_path); simpl; [|done].
    destruct urls as [[|url urls]|]; [done| |done].
    destruct (parse_image_info w config_path image_info) as [info|e1]; simpl; [|done].
    destruct (_load_categories w _) as [cats|e2]; simpl; [|done].
    by intros [= <-].
Qed.

(** X19: how the category loader fails, and when it does not look at
    the category file.  With a meta file in the directory the
    categories are its keys, whatever the category file holds.
    Without one, a category file that cannot be read or parsed passes
    its exception on, a document that is no mapping raises [TypeError],
    and a mapping without the key [names] raises [KeyError]. *)
Theorem category_loader_failure_modes (names_path : string) :
  (has_meta_file w (osp_dirname w names_path) = true ->
   NoDup (parse_meta_file_keys w (osp_dirname w names_path)) ->
   _load_categories w names_path
   = Return (parse_meta_file_keys w (osp_dirname w names_path)))
  /\ (has_meta_file w (osp_dirname w names_path) = false ->
      (forall e, read_yaml w names_path = Raise e ->
                 _load_categories w names_path = Raise e)
      /\ (read_yaml w names_path = Return YNotAMapping ->
          exists msg, _load_categories w names_path = Raise (TypeError msg))
      /\ (forall fields, read_yaml w names_path = Return (YDoc fields) ->
            assoc "names" fields = None ->
            _load_categories w names_path = Raise (KeyError "names"))).
Proof.
  unfold _load_categories. split.
  - intros -> Hnd. by apply add_all_fresh.
  - intros ->. split; [|split].
    + by intros e ->.
    + intros ->. by eexists.
    + intros fields -> Hnames. simpl. by rewrite Hnames.
Qed.

Lemma occurs_backslash_to_slash (s : string) :
  occurs "\"%char (backslash_to_slash s) = false.
Proof.
  induction s as [|c r IH]; [done|].
  cbn [backslash_to_slash occurs]. rewrite IH, orb_false_r.
  destruct (Ascii.eqb c "\"%char) eqn:Hc; [done|].
  by rewrite Ascii.eqb_sym.
Qed.

Lemma occurs_drop_chars (c : ascii) (n : nat) :
  forall s, occurs c s = false -> occurs c (drop_chars n s) = false.
Proof.
  induction n as [|n IH]; intros s; simpl; [done|].
  destruct s as [|c' r]; simpl; [done|].
  intros Hs. apply orb_false_iff in Hs as [_ Hr]. by apply IH.
Qed.

(** X20: a localized path has no backslash: every backslash of the
    normalized path has become a slash before the prefix is cut. *)
Theorem localize_path_has_no_backslash (path : string) :
  occurs "\"%char (localize_path w path) = false.
Proof.
  unfold localize_path.
  destruct (startswith _ _).
  - apply occurs_drop_chars, occurs_backslash_to_slash.
  - apply occurs_backslash_to_slash.
Qed.

End SetupProperties.

Section LifetimeProperties.

Context {F : Type} (w : World F).

Implicit Types (s : State F) (od : ODict F).

(** A call of [_get] for another id or another subset leaves the
    status of this id as it is. *)
Lemma get_other_status s (id' name' : string) s' r (item_id subset_name : string) :
  _get w s id' name' = (s', r) ->
  (id', name') <> (item_id, subset_name) ->
  cache_status s' item_id subset_name = cache_status s item_id subset_name.
Proof.
  intros Hcall Hother. unfold cache_status.
  unfold _get in Hcall.
  destruct (_subsets s !! name') as [od|] eqn:Hsub.
  2:{ by injection Hcall as <- _. }
  destruct (od_get id' od) as [entry|] eqn:Hget.
  2:{ by injection Hcall as <- _. }
  pose proof (get_present w s id' name' od entry Hsub Hget) as Hcases.
  unfold _get in Hcases. rewrite Hsub, Hget in Hcases.
  destruct entry as [filename|item].
  2:{ by injection Hcall as <- _. }
  destruct (decide (name' = subset_name)) as [->|Hname].
  - assert (Hid : item_id <> id') by (intros ->; by apply Hother).
    rewrite Hsub. simpl.
    destruct Hcases as (evs & _ & [(item & _ & Heq)|(e & od' & _ & _ & Hpop & Heq)]);
      rewrite Heq in Hcall; injection Hcall as <- _; simpl;
      rewrite lookup_insert_eq; simpl; f_equal.
    + by apply (od_get_set_other id' item_id _ _ od Hget).
    + by apply (od_get_pop_other id').
  - destruct Hcases as (evs & _ & [(item & _ & Heq)|(e & od' & _ & _ & Hpop & Heq)]);
      rewrite Heq in Hcall; injection Hcall as <- _; simpl;
      by rewrite lookup_insert_ne.
Qed.

(** A call of [_get] for a settled id changes nothing, and its result
    is read off the cache. *)
Lemma get_settled s (item_id subset_name : string) :
  is_settled s item_id subset_name ->
  _get w s item_id subset_name
  = (s, match cache_status s item_id subset_name with
        | None => Raise (KeyError subset_name)
        | Some None => Raise (KeyError item_id)
        | Some (Some (Resolved item)) => Return (Some item)
        | Some (Some (Placeholder _)) => Return None
        end).
Proof.
  unfold is_settled, cache_status, _get. intros Hsettled.
  destruct (_subsets s !! subset_name) as [od|]; simpl in *; [|done].
  destruct (od_get item_id od) as [[filename|item]|]; [|done|done].
  by destruct (Hsettled filename).
Qed.

(** Whatever [_get] is called for, a settled id stays settled, with the
    same status. *)
Lemma get_keeps_status s (id' name' : string) (item_id subset_name : string) :
  is_settled s item_id subset_name ->
  cache_status (_get w s id' name').1 item_id subset_name
  = cache_status s item_id subset_name.
Proof.
  intros Hsettled.
  destruct (decide ((id', name') = (item_id, subset_name))) as [[= -> ->]|Hother].
  - by rewrite get_settled.
  - destruct (_get w s id' name') as [s' r] eqn:Hcall. simpl.
    by apply (get_other_status s id' name' s' r).
Qed.

Lemma settled_by_status s s' (item_id subset_name : string) :
  cache_status s' item_id subset_name = cache_status s item_id subset_name ->
  is_settled s item_id subset_name ->
  is_settled s' item_id subset_name.
Proof. unfold is_settled. by intros ->. Qed.

(** The loop of [Subset.__iter__] is a sequence of calls of [_get]. *)
Lemma iter_from_keeps_status (name : string) (di_state : nat) (keys : list string)
    (item_id subset_name : string) :
  forall s,
    is_settled s item_id subset_name ->
    cache_status (iter_from w name di_state keys s).1.1 item_id subset_name
    = cache_status s item_id subset_name.
Proof.
  induction keys as [|k rest IH]; intros s Hsettled; simpl; [done|].
  destruct (_subsets s !! name) as [od|]; [|done].
  destruct (negb (Nat.eqb (od_state od) di_state)); [done|].
  pose proof (get_keeps_status s k name item_id subset_name Hsettled) as Hstep.
  destruct (_get w s k name) as [s1 [[item|]|e]]; simpl in Hstep.
  - specialize (IH s1 (settled_by_status _ _ _ _ Hstep Hsettled)).
    destruct (iter_from w name di_state rest s1) as [[s2 items] out].
    simpl in *. congruence.
  - rewrite IH; [done|]. by apply (settled_by_status s).
  - done.
Qed.

(** The reader of the url list leaves the subsets alone. *)
Lemma iter_urls_subsets (urls : list string) :
  forall s, _subsets (iter_urls w urls s).1 = _subsets s.
Proof.
  induction urls as [|url rest IH]; intros s; simpl; [done|].
  destruct (_img_files (ext s) !! _get_fname w url) as [path|]; [|by rewrite IH].
  destruct (_parse_annotations w s url _ _) as [s1 [anns|e]] eqn:Hparse;
    apply parse_annotations_events in Hparse as (evs1 & -> & _).
  - specialize (IH (extend_trace evs1 s)).
    by destruct (iter_urls w rest (extend_trace evs1 s)) as [s2 items].
  - by rewrite IH.
Qed.

Lemma run_call_keeps_status s (c : Call) (item_id subset_name : string) :
  is_settled s item_id subset_name ->
  cache_status (run_call w s c) item_id subset_name
  = cache_status s item_id subset_name.
Proof.
  intros Hsettled. destruct c as [id' name'|name|]; simpl.
  - by apply get_keeps_status.
  - unfold Subset_iter. destruct (_subsets s !! name) as [od|]; [|done].
    by apply iter_from_keeps_status.
  - unfold cache_status, Extractor_iter. by rewrite iter_urls_subsets.
Qed.

Lemma run_calls_keep_status (calls : list Call) (item_id subset_name : string) :
  forall s,
    is_settled s item_id subset_name ->
    cache_status (run_calls w calls s) item_id subset_name
    = cache_status s item_id subset_name.
Proof.
  unfold run_calls.
  induction calls as [|c calls IH]; intros s Hsettled; simpl; [done|].
  pose proof (run_call_keeps_status s c item_id subset_name Hsettled) as Hstep.
  rewrite IH; [done|]. by apply (settled_by_status s).
Qed.

(** One call of [_get] settles its id, and its result tells how. *)
Lemma get_settles s (item_id subset_name : string) s1 r :
  _get w s item_id subset_name = (s1, r) ->
  is_settled s1 item_id subset_name
  /\ (forall cached, r = Return (Some cached) ->
        cache_status s1 item_id subset_name = Some (Some (Resolved cached)))
  /\ (r = Return None -> cache_status s1 item_id subset_name = Some None).
Proof.
  unfold is_settled, cache_status. unfold _get.
  destruct (_subsets s !! subset_name) as [od|] eqn:Hsub.
  2:{ intros [= <- <-]. by rewrite Hsub. }
  destruct (od_get item_id od) as [entry|] eqn:Hget.
  2:{ intros [= <- <-]. rewrite Hsub. simpl. by rewrite Hget. }
  pose proof (get_present w s item_id subset_name od entry Hsub Hget) as Hcases.
  unfold _get in Hcases. rewrite Hsub, Hget in Hcases.
  destruct entry as [filename|item].
  - destruct Hcases as (evs & _ & [(item & _ & ->)|(e & od' & _ & _ & Hpop & ->)]);
      intros [= <- <-]; simpl; rewrite lookup_insert_eq; simpl.
    + destruct (od_get_set item_id (Resolved item) _ od Hget) as [-> _].
      split; [done|]. split; [|done]. by intros cached [= <-].
    + destruct (od_pop_present _ _ _ Hget) as (od'' & Hpop' & Hnone & _).
      assert (od'' = od') as -> by congruence. rewrite Hnone.
      split; [done|]. split; done.
  - intros [= <- <-]. rewrite Hsub. simpl. rewrite Hget.
    split; [done|]. split; [|done]. by intros cached [= <-].
Qed.

(** C3: an entry is resolved once, for good.  Take any call of [_get],
    and after it any sequence of calls on the extractor: calls of
    [_get] for any id of any subset, iterations over subsets,
    iterations over the extractor.  A call of [_get] for the first id
    in the state that results leaves the whole state as it is: no file
    is opened, no size is read, nothing is reported.  When the first
    call returned an item, by resolving the entry or from the cache,
    this later call returns that same item.  When the first call
    evicted the entry and returned nothing, the id is no longer a key
    of the subset, and this later call raises [KeyError] for it. *)
Theorem get_is_settled_for_good s item_id subset_name s1 r (calls : list Call) :
  _get w s item_id subset_name = (s1, r) ->
  (_get w (run_calls w calls s1) item_id subset_name).1 = run_calls w calls s1
  /\ (forall cached : DatasetItem F, r = Return (Some cached) ->
        _get w (run_calls w calls s1) item_id subset_name
        = (run_calls w calls s1, Return (Some cached)))
  /\ (r = Return None ->
        _get w (run_calls w calls s1) item_id subset_name
        = (run_calls w calls s1, Raise (KeyError item_id))).
Proof.
  intros Hfirst.
  destruct (get_settles s item_id subset_name s1 r Hfirst) as (Hsettled & Hitem & Hnone).
  pose proof (run_calls_keep_status calls item_id subset_name s1 Hsettled) as Hstatus.
  pose proof (settled_by_status _ _ _ _ Hstatus Hsettled) as Hlater.
  rewrite (get_settled _ _ _ Hlater), Hstatus.
  split; [done|]. split.
  - intros cached Hr. by rewrite (Hitem cached Hr).
  - intros Hr. by rewrite (Hnone Hr).
Qed.

End LifetimeProperties.

(** * The further properties on the samples *)

Lemma parser_only_extends_the_trace_witness :
  ext (_parse_annotations sample_world two_state "root/two.txt" (sample_image "two")
         ("two", "train")).1 = ext two_state
  /\ _subsets (_parse_annotations sample_world two_state "root/two.txt"
                 (sample_image "two") ("two", "train")).1 = _subsets two_state
  /\ exists evs,
       trace (_parse_annotations sample_world two_state "root/two.txt"
                (sample_image "two") ("two", "train")).1 = trace two_state ++ evs
       /\ Forall (parser_event "root/two.txt" (sample_image "two") ("two", "train")) evs
       /\ item_reports evs = [].
Proof.
  apply (parser_only_extends_the_trace sample_world two_state "root/two.txt"
           (sample_image "two") ("two", "train")
           (_parse_annotations sample_world two_state "root/two.txt"
              (sample_image "two") ("two", "train")).1
           (_parse_annotations sample_world two_state "root/two.txt"
              (sample_image "two") ("two", "train")).2).
  vm_compute; reflexivity.
Defined.

Lemma line_checks_come_in_order_witness :
  parse_line sample_world [YStr "a"; YStr "b"] 100 100 0 short = Raise field_count_8
  /\ parse_line sample_world [YStr "a"; YStr "b"] 100 100 0 "x 0.1 0.1 u 0.1 0.2 0.2 0.1 0.2"
     = Raise (InvalidAnnotationError
                "Can't parse oriented bbox label id from 'x'. Expected <class 'int'>")
  /\ parse_line sample_world [YStr "a"; YStr "b"] 100 100 0 "7 0.1 0.1 u 0.1 0.2 0.2 0.1 0.2"
     = Raise (UndeclaredLabelError "7").
Proof.
  split; [|split].
  - rewrite (proj1 (line_checks_come_in_order sample_world [YStr "a"; YStr "b"]
                      100 100 0 short)).
    + vm_compute; reflexivity.
    + vm_compute. discriminate.
  - apply (proj2 (line_checks_come_in_order sample_world [YStr "a"; YStr "b"]
                    100 100 0 "x 0.1 0.1 u 0.1 0.2 0.2 0.1 0.2")
             "x" ["0.1"; "0.1"; "u"; "0.1"; "0.2"; "0.2"; "0.1"; "0.2"]);
      vm_compute; reflexivity.
  - apply (proj2 (proj2 (line_checks_come_in_order sample_world [YStr "a"; YStr "b"]
                           100 100 0 "7 0.1 0.1 u 0.1 0.2 0.2 0.1 0.2")
                    "7" ["0.1"; "0.1"; "u"; "0.1"; "0.2"; "0.2"; "0.1"; "0.2"]
                    ltac:(vm_compute; reflexivity) ltac:(vm_compute; reflexivity))
             7);
      vm_compute; reflexivity.
Defined.

Lemma parsed_boxes_have_declared_labels_witness :
  0 <= bbox_label (wide_box 2) < Z.of_nat (length (_categories (ext two_state)))
  /\ is_Some (_categories (ext two_state) !! Z.to_nat (bbox_label (wide_box 2))).
Proof.
  apply (parsed_boxes_have_declared_labels sample_world two_state "root/two.txt"
           (sample_image "two") ("two", "train")
           (_parse_annotations sample_world two_state "root/two.txt"
              (sample_image "two") ("two", "train")).1
           [square_box 0; wide_box 2]).
  - vm_compute; reflexivity.
  - right; left.
Defined.

Lemma every_line_is_a_box_or_a_report_witness :
  StronglySorted lt (bbox_id <$> [square_box 0; wide_box 2])
  /\ exists evs,
       trace (_parse_annotations sample_world two_state "root/two.txt"
                (sample_image "two") ("two", "train")).1 = trace two_state ++ evs
       /\ (length [square_box 0; wide_box 2] + length (annotation_reports evs))%nat
          = length (collect_lines [square; undeclared; wide]).
Proof.
  apply (every_line_is_a_box_or_a_report sample_world two_state "root/two.txt"
           (sample_image "two") ("two", "train") [square; undeclared; wide]
           (_parse_annotations sample_world two_state "root/two.txt"
              (sample_image "two") ("two", "train")).1
           [square_box 0; wide_box 2]);
    vm_compute; reflexivity.
Defined.

Lemma blank_lines_do_not_count_witness :
  exists evs r,
    _parse_annotations spaced_world two_state "root/spaced.txt" (sample_image "two")
      ("two", "train")
    = (extend_trace (OpenFile "root/spaced.txt" :: evs) two_state, r)
    /\ _parse_annotations spaced_world two_state "root/dense.txt" (sample_image "two")
         ("two", "train")
       = (extend_trace (OpenFile "root/dense.txt" :: evs) two_state, r).
Proof.
  apply (blank_lines_do_not_count spaced_world two_state (sample_image "two")
           ("two", "train") "root/spaced.txt" "root/dense.txt"
           [square] [undeclared; wide] "  ");
    vm_compute; reflexivity.
Defined.

Lemma placeholder_resolves_only_with_two_boxes_witness :
  (_get lenient_world two_state "two" "train").2 = Return (Some two_item).
Proof.
  assert (Hsub : _subsets two_state !! "train"
                 = Some {| od_items := [("two", Placeholder "two.jpg")]; od_state := 0 |})
    by (vm_compute; reflexivity).
  apply (proj2 (placeholder_resolves_only_with_two_boxes lenient_world two_state
                  "two" "train" _ "two.jpg" two_item Hsub eq_refl)).
  exists (square_box 0), (wide_box 2), [square_box 0].
  split; [vm_compute; reflexivity|]. split; [reflexivity|]. vm_compute; reflexivity.
Defined.

Lemma eviction_reports_one_item_error_witness :
  exists evs' e,
    trace (_get sample_world missing_state "missing" "train").1
    = trace missing_state ++ evs' ++ [ItemError e ("missing", "train")]
    /\ item_reports evs' = []
    /\ is_annotation_error e = false.
Proof.
  destruct (eviction_reports_one_item_error sample_world missing_state "missing" "train"
              (_get sample_world missing_state "missing" "train").1 (Return None))
    as (evs & Htrace & _ & Hnone).
  - vm_compute; reflexivity.
  - destruct (Hnone eq_refl) as (evs' & e & Hevs & Hitems & Hkind).
    exists evs', e. rewrite Htrace, Hevs. by repeat split.
Defined.

Lemma get_touches_one_entry_witness :
  ext (_get sample_world mixed_state "missing" "train").1 = ext mixed_state
  /\ (exists evs, trace (_get sample_world mixed_state "missing" "train").1
                  = trace mixed_state ++ evs)
  /\ (forall other, other <> "train" ->
        _subsets (_get sample_world mixed_state "missing" "train").1 !! other
        = _subsets mixed_state !! other)
  /\ (forall od other, _subsets mixed_state !! "train" = Some od -> other <> "missing" ->
        exists od', _subsets (_get sample_world mixed_state "missing" "train").1 !! "train"
                    = Some od'
          /\ od_get other od' = od_get other od).
Proof.
  apply (get_touches_one_entry sample_world mixed_state "missing" "train"
           (_get sample_world mixed_state "missing" "train").1
           (_get sample_world mixed_state "missing" "train").2).
  vm_compute; reflexivity.
Defined.

Lemma get_shortens_by_eviction_only_witness :
  S <$> Subset_len (_get sample_world mixed_state "missing" "train").1 "train"
  = Subset_len mixed_state "train"
  /\ S (Extractor_len (_get sample_world mixed_state "missing" "train").1)
     = Extractor_len mixed_state.
Proof.
  assert (Hsub : _subsets mixed_state !! "train"
                 = Some {| od_items := [("two", Resolved two_item);
                                        ("missing", Placeholder "missing.jpg");
                                        ("one", Placeholder "one.jpg")];
                           od_state := 0 |})
    by (vm_compute; reflexivity).
  assert (Hnd : NoDup ["two"; "missing"; "one"])
    by (apply (bool_decide_unpack _); vm_compute; exact I).
  assert (Hget : _get sample_world mixed_state "missing" "train"
                 = ((_get sample_world mixed_state "missing" "train").1, Return None))
    by (vm_compute; reflexivity).
  apply (proj1 (proj2 (get_shortens_by_eviction_only sample_world mixed_state
                         "missing" "train" _ _ _ Hsub Hnd Hget)) eq_refl).
Defined.

Lemma resolved_subset_iterates_from_cache_witness :
  Subset_iter sample_world two_resolved_state "train"
  = (two_resolved_state, [two_item], None).
Proof.
  apply (resolved_subset_iterates_from_cache sample_world "train" two_resolved_state
           {| od_items := [("two", Resolved two_item)]; od_state := 0 |}).
  - vm_compute; reflexivity.
  - apply (bool_decide_unpack _); vm_compute; exact I.
  - repeat constructor. by exists two_item.
Defined.

Lemma iteration_ends_normally_or_mutated_witness :
  exists s' items out,
    Subset_iter sample_world missing_two_state "train" = (s', items, out)
    /\ (out = None \/ out = Some mutated).
Proof.
  apply (iteration_ends_normally_or_mutated sample_world "train" missing_two_state
           {| od_items := [("missing", Placeholder "missing.jpg");
                           ("two", Placeholder "two.jpg")];
              od_state := 0 |}).
  vm_compute; reflexivity.
Defined.

Lemma completed_iteration_is_memoized_witness :
  Subset_iter lenient_world (Subset_iter lenient_world two_state "train").1.1 "train"
  = ((Subset_iter lenient_world two_state "train").1.1, [two_item], None).
Proof.
  apply (completed_iteration_is_memoized lenient_world "train" two_state
           {| od_items := [("two", Placeholder "two.jpg")]; od_state := 0 |}).
  - vm_compute; reflexivity.
  - apply (bool_decide_unpack _); vm_compute; exact I.
  - vm_compute; reflexivity.
Defined.

Lemma eviction_in_the_middle_aborts_witness :
  Subset_iter sample_world mixed_state "train"
  = ((_get sample_world mixed_state "missing" "train").1, [two_item], Some mutated).
Proof.
  apply (eviction_in_the_middle_aborts sample_world "train" mixed_state
           {| od_items := [("two", Resolved two_item);
                           ("missing", Placeholder "missing.jpg");
                           ("one", Placeholder "one.jpg")];
              od_state := 0 |}
           (_get sample_world mixed_state "missing" "train").1
           [("two", Resolved two_item)] [] "missing" "missing.jpg"
           ("one", Placeholder "one.jpg")).
  - vm_compute; reflexivity.
  - reflexivity.
  - apply (bool_decide_unpack _); vm_compute; exact I.
  - repeat constructor. by exists two_item.
  - vm_compute; reflexivity.
Defined.

Lemma url_reader_accounts_for_every_url_witness :
  (iter_urls_types sample_world bbox_name sample_urls url_state ∅).1.2 = [one_url_item]
  /\ ext (iter_urls_types sample_world bbox_name sample_urls url_state ∅).1.1
     = ext url_state
  /\ _subsets (iter_urls_types sample_world bbox_name sample_urls url_state ∅).1.1
     = _subsets url_state
  /\ sublist (item_id <$> [one_url_item]) (_get_fname sample_world <$> sample_urls)
  /\ exists evs,
       trace (iter_urls_types sample_world bbox_name sample_urls url_state ∅).1.1
       = trace url_state ++ evs
       /\ (length [one_url_item] + length (item_reports evs))%nat = length sample_urls.
Proof.
  split; [vm_compute; reflexivity|].
  apply (url_reader_accounts_for_every_url sample_world bbox_name sample_urls url_state ∅
           (iter_urls_types sample_world bbox_name sample_urls url_state ∅).1.1
           [one_url_item]
           (iter_urls_types sample_world bbox_name sample_urls url_state ∅).2).
  vm_compute; reflexivity.
Defined.

Lemma url_items_keep_every_box_witness :
  exists url path,
    url ∈ sample_urls
    /\ _img_files (ext url_state) !! _get_fname sample_world url = Some path
    /\ item_id one_url_item = _get_fname sample_world url
    /\ item_subset one_url_item = _subset (ext url_state)
    /\ item_media one_url_item = {| image_path := path; image_known_size := None |}
    /\ (_parse_annotations sample_world url_state url (item_media one_url_item)
          (_get_fname sample_world url, _subset (ext url_state))).2
       = Return (item_annotations one_url_item).
Proof.
  apply (url_items_keep_every_box sample_world bbox_name sample_urls url_state ∅
           (iter_urls_types sample_world bbox_name sample_urls url_state ∅).1.1
           [one_url_item]
           (iter_urls_types sample_world bbox_name sample_urls url_state ∅).2).
  - vm_compute; reflexivity.
  - left.
Defined.

Lemma ann_types_are_those_of_the_items_witness :
  "bbox" ∈ (iter_urls_types sample_world bbox_name sample_urls url_state ∅).2.
Proof.
  apply (proj2 (ann_types_are_those_of_the_items sample_world bbox_name sample_urls
                  url_state ∅
                  (iter_urls_types sample_world bbox_name sample_urls url_state ∅).1.1
                  [one_url_item]
                  (iter_urls_types sample_world bbox_name sample_urls url_state ∅).2
                  ltac:(vm_compute; reflexivity) "bbox")).
  right. exists one_url_item, (square_box 0).
  split; [left|]. split; [left|reflexivity].
Defined.

Lemma init_checks_arguments_first_witness :
  __init__ no_dir_world "root" InfoNone (Some ["root/one.txt"]) None
  = Raise (DatasetImportError "root should be a directory.")
  /\ __init__ sample_world "root" InfoNone (Some []) None
     = Raise (DatasetImportError urls_missing_message)
  /\ _load_categories sample_world "root/data.yaml" = Return (_categories root_extractor).
Proof.
  split; [|split].
  - apply (proj1 (init_checks_arguments_first no_dir_world "root" InfoNone
                    (Some ["root/one.txt"]) None)).
    reflexivity.
  - apply (proj1 (proj2 (init_checks_arguments_first sample_world "root" InfoNone
                           (Some []) None))).
    + reflexivity.
    + by right.
  - apply (proj2 (proj2 (init_checks_arguments_first sample_world "root" InfoNone
                           (Some ["root/one.txt"]) None)) root_extractor).
    vm_compute; reflexivity.
Defined.

Lemma category_loader_failure_modes_witness :
  _load_categories meta_world "root/data.yaml" = Return [YStr "x"; YStr "y"]
  /\ _load_categories odd_world "none/data.yaml" = Raise (OSError "none/data.yaml")
  /\ (exists msg, _load_categories odd_world "list/data.yaml" = Raise (TypeError msg))
  /\ _load_categories odd_world "other/data.yaml" = Raise (KeyError "names").
Proof.
  split; [|split; [|split]].
  - apply (proj1 (category_loader_failure_modes meta_world "root/data.yaml")).
    + reflexivity.
    + apply (bool_decide_unpack _); vm_compute; exact I.
  - apply (proj1 (proj2 (category_loader_failure_modes odd_world "none/data.yaml")
                    eq_refl)).
    reflexivity.
  - apply (proj1 (proj2 (proj2 (category_loader_failure_modes odd_world "list/data.yaml")
                           eq_refl))).
    reflexivity.
  - apply (proj2 (proj2 (proj2 (category_loader_failure_modes odd_world "other/data.yaml")
                           eq_refl))
             [("nc", YScalar (YInt 2))]);
      reflexivity.
Defined.

Lemma get_is_settled_for_good_witness :
  _get lenient_world
    (run_calls lenient_world [CallGet "blank" "train"]
       (_get lenient_world two_blank_state "two" "train").1) "two" "train"
  = (run_calls lenient_world [CallGet "blank" "train"]
       (_get lenient_world two_blank_state "two" "train").1,
     Return (Some two_item))
  /\ _get sample_world
       (run_calls sample_world later_calls
          (_get sample_world mixed_state "two" "train").1) "two" "train"
     = (run_calls sample_world later_calls
          (_get sample_world mixed_state "two" "train").1,
        Return (Some two_item))
  /\ _get sample_world
       (run_calls sample_world later_calls
          (_get sample_world mixed_state "missing" "train").1) "missing" "train"
     = (run_calls sample_world later_calls
          (_get sample_world mixed_state "missing" "train").1,
        Raise (KeyError "missing")).
Proof.
  split; [|split].
  - apply (proj1 (proj2 (get_is_settled_for_good lenient_world two_blank_state
                           "two" "train"
                           (_get lenient_world two_blank_state "two" "train").1
                           (Return (Some two_item))
                           [CallGet "blank" "train"]
                           ltac:(vm_compute; reflexivity)))
             two_item eq_refl).
  - apply (proj1 (proj2 (get_is_settled_for_good sample_world mixed_state
                           "two" "train"
                           (_get sample_world mixed_state "two" "train").1
                           (Return (Some two_item)) later_calls
                           ltac:(vm_compute; reflexivity)))
             two_item eq_refl).
  - apply (proj2 (proj2 (get_is_settled_for_good sample_world mixed_state
                           "missing" "train"
                           (_get sample_world mixed_state "missing" "train").1
                           (Return None) later_calls
                           ltac:(vm_compute; reflexivity)))
             eq_refl).
Defined.

(** The files that are opened by a call for [two], a call for [blank]
    and a second call for [two]: each annotation file once. *)
Example later_get_opens_no_file :
  trace (run_calls lenient_world
           [CallGet "two" "train"; CallGet "blank" "train"; CallGet "two" "train"]
           two_blank_state)
  = [ OpenFile "root/two.txt";
      ImageSizeRead "root/two.jpg"; ImageSizeRead "root/two.jpg";
      AnnotationError (UndeclaredLabelError "7") ("two", "train");
      OpenFile "root/blank.txt";
      ImageSizeRead "root/blank.jpg"; ImageSizeRead "root/blank.jpg";
      ItemError (ValueError "not enough values to unpack (expected 2, got 1)")
        ("blank", "train") ].
Proof. vm_compute; reflexivity. Qed.
